(** * Media DB plugin: record model, schema migration, default property
      mappings and variant selection

    A shallow embedding of the TypeScript sources

      - [src/models/MediaTypeModel.ts]   (abstract record, export payload),
      - [src/models/GameModel.ts]        (the Game variant),
      - the settings module              ([getDefaultSettings]),
      - the two revisions of [BangumiAPI.getById] (variant selection),

    together with the properties their specification states about them.

    JavaScript objects are ordered: [Object.keys], [for ... in] and object
    spread enumerate the own string keys in insertion order.  Objects are
    therefore association lists, and assignment to an existing key keeps
    the key's position. *)

From Stdlib Require Import String Ascii List ZArith Bool Lia.
From Stdlib Require Import DecimalString.
Import ListNotations.
Local Open Scope string_scope.
Local Open Scope list_scope.

(* ================================================================== *)
(** ** JavaScript values and plain objects *)

Module JS.

(** Primitive values.  Numbers are integers here: the modelled code
    stores, compares and prints numbers but never computes with them. *)
Inductive prim : Type :=
| Undefined
| Null
| Boolean (b : bool)
| Number (n : Z)
| Str (s : string).

#[local] Unset Elimination Schemes.
Inductive value : Type :=
| Prim (p : prim)
| Array (xs : list value)
| Object (fs : list (string * value)).

#[local] Set Elimination Schemes.

Coercion Prim : prim >-> value.

(** The own enumerable properties of a plain object, in insertion order. *)
Definition object : Type := list (string * value).

(** [o.hasOwnProperty(k)] for a data object [o]. *)
Definition hasOwnProperty (o : object) (k : string) : bool :=
  existsb (fun kv => String.eqb (fst kv) k) o.

Fixpoint lookup (k : string) (o : object) : option value :=
  match o with
  | [] => None
  | (k', v) :: o' => if String.eqb k' k then Some v else lookup k o'
  end.

(** Property read [o[k]]: a missing property reads as [undefined]. *)
Definition get (o : object) (k : string) : value :=
  match lookup k o with
  | Some v => v
  | None => Prim Undefined
  end.

(** Assignment [o[k] = v]: an existing key keeps its place, a new key is
    appended.  This is the order of insertion, which is the order
    JavaScript enumerates keys in unless a key is written as a number
    (see [integer_like] below). *)
Definition set (k : string) (v : value) (o : object) : object :=
  if hasOwnProperty o k
  then map (fun kv => if String.eqb (fst kv) k then (fst kv, v) else kv) o
  else o ++ [(k, v)].

(** [delete o[k]]. *)
Definition delete (k : string) (o : object) : object :=
  filter (fun kv => negb (String.eqb (fst kv) k)) o.

(** [Object.keys(o)], also the order of [for (key in o)]. *)
Definition keys (o : object) : list string := map fst o.

Fixpoint all_digits (s : string) : bool :=
  match s with
  | EmptyString => true
  | String c s' =>
      Nat.leb 48 (Ascii.nat_of_ascii c) && Nat.leb (Ascii.nat_of_ascii c) 57
      && all_digits s'
  end.

(** Keys written as a number (['0'], ['12']).  JavaScript enumerates
    the integer keys of an object first and in ascending order, whenever
    they were added, and the other keys after them in the order of
    insertion.  [set], [spread] and [keys] give the order of insertion:
    what is stated below about the order of keys is stated for objects
    none of whose keys is written as a number, as is the case of every
    field name the classes declare. *)
Definition integer_like (k : string) : bool :=
  negb (String.eqb k "") && all_digits k.

(** Object spread [{ ...dst, ...src }] continued from [dst]: the
    properties of [src] are assigned one after the other. *)
Definition spread (src dst : object) : object :=
  fold_left (fun o kv => set (fst kv) (snd kv) o) src dst.

(** The properties object spread copies out of a value.  [undefined],
    [null], booleans and numbers contribute none.  A string or an array
    would contribute index keys; the records of this program never hold
    one where an object is spread, and the statements below that depend
    on it assume an [Object]. *)
Definition own_props (v : value) : object :=
  match v with
  | Object fs => fs
  | _ => []
  end.

(** [Array.prototype.join] on an array of strings. *)
Definition join (sep : string) (xs : list string) : string :=
  String.concat sep xs.

(** The decimal digits of an integer, which is how JavaScript prints
    an integer below 1e21; fractions and larger numbers are outside the
    model, where [Number] holds an integer. *)
Definition number_to_string (n : Z) : string :=
  NilZero.string_of_int (Z.to_int n).

Definition prim_to_string (p : prim) : string :=
  match p with
  | Undefined => "undefined"
  | Null => "null"
  | Boolean true => "true"
  | Boolean false => "false"
  | Number n => number_to_string n
  | Str s => s
  end.

(** [ToString], as applied by [+] when the other operand is a string.
    An array prints its elements joined by commas, [undefined] and
    [null] elements printing as nothing.  An object prints as
    ['[object Object]'], which is what one without a [toString] of its
    own prints as; [BangumiV1.printable] below tells the values for
    which this is what JavaScript does. *)
Fixpoint to_string (v : value) : string :=
  match v with
  | Prim p => prim_to_string p
  | Array xs =>
      String.concat ","
        (map (fun x => match x with
                       | Prim Undefined | Prim Null => ""
                       | _ => to_string x
                       end) xs)
  | Object _ => "[object Object]"
  end.

(** [a + s] and [s + a] for a string [s]: the other operand is
    converted and the two are concatenated. *)
Definition val_add_str (a : value) (s : string) : string :=
  (to_string a ++ s)%string.

Definition str_add_val (s : string) (a : value) : string :=
  (s ++ to_string a)%string.

(** The runtime type of a value, arrays and [null] told apart. *)
Inductive kind : Type :=
| KUndefined | KNull | KBoolean | KNumber | KString | KArray | KObject.

Definition kind_of (v : value) : kind :=
  match v with
  | Prim Undefined => KUndefined
  | Prim Null => KNull
  | Prim (Boolean _) => KBoolean
  | Prim (Number _) => KNumber
  | Prim (Str _) => KString
  | Array _ => KArray
  | Object _ => KObject
  end.

Definition kind_eqb (a b : kind) : bool :=
  match a, b with
  | KUndefined, KUndefined | KNull, KNull | KBoolean, KBoolean
  | KNumber, KNumber | KString, KString | KArray, KArray
  | KObject, KObject => true
  | _, _ => false
  end.

(** Truthiness, as tested by [if] and [!]. *)
Definition truthy (v : value) : bool :=
  match v with
  | Prim Undefined | Prim Null => false
  | Prim (Boolean b) => b
  | Prim (Number n) => negb (Z.eqb n 0)
  | Prim (Str s) => negb (String.eqb s "")
  | Array _ | Object _ => true
  end.

(** Strict equality [v === s] against a string literal. *)
Definition is_str (v : value) (s : string) : bool :=
  match v with
  | Prim (Str s') => String.eqb s' s
  | _ => false
  end.

(** Strict equality [v === n] against a number literal. *)
Definition is_num (v : value) (n : Z) : bool :=
  match v with
  | Prim (Number n') => Z.eqb n' n
  | _ => false
  end.

End JS.
Import JS.

(** Structural induction on values, through arrays and objects. *)
Section ValueInduction.

Variable P : value -> Prop.
Hypothesis HPrim : forall p, P (Prim p).
Hypothesis HArray : forall xs, Forall P xs -> P (Array xs).
Hypothesis HObject : forall fs, Forall (fun kv => P (snd kv)) fs -> P (Object fs).

Fixpoint value_ind (v : value) : P v :=
  match v with
  | Prim p => HPrim p
  | Array xs =>
      HArray xs
        ((fix all (xs : list value) : Forall P xs :=
            match xs with
            | [] => Forall_nil P
            | x :: xs' => Forall_cons x (value_ind x) (all xs')
            end) xs)
  | Object fs =>
      HObject fs
        ((fix all (fs : list (string * value))
            : Forall (fun kv => P (snd kv)) fs :=
            match fs with
            | [] => Forall_nil _
            | kv :: fs' => Forall_cons kv (value_ind (snd kv)) (all fs')
            end) fs)
  end.

End ValueInduction.

(* ================================================================== *)
(** ** utils/MediaType and utils/Utils *)

Module MediaType.

(** Modelled from the spec: the [MediaType] enumeration ([utils/MediaType]
    is not among the sources).  The spec lists the eight media kinds; the
    string behind a kind is the literal the vendor adapters pass as
    [type] ('movie', 'series', 'comicManga', 'game') and, for the other
    kinds, the stem of the kind's settings keys. *)
Inductive t : Type :=
| Movie | Series | ComicManga | Game | MusicRelease | Wiki | BoardGame | Book.

Definition to_string (m : t) : string :=
  match m with
  | Movie => "movie"
  | Series => "series"
  | ComicManga => "comicManga"
  | Game => "game"
  | MusicRelease => "musicRelease"
  | Wiki => "wiki"
  | BoardGame => "boardgame"
  | Book => "book"
  end.

End MediaType.

Module Utils.

(** Modelled from the spec: type compatibility of a persisted value with
    a field of the reference instance ([utils/Utils] is not among the
    sources).  The reference is an instance, so the type of a field is
    the runtime type of the reference's value; a field whose reference
    value is [undefined] (an optional field) carries no type and accepts
    every value. *)
Definition type_compatible (source reference : value) : bool :=
  match kind_of reference with
  | KUndefined => true
  | k => kind_eqb (kind_of source) k
  end.

(** Modelled from the spec: the value one field receives in a migration.
    "Every field present in both source and reference retains the
    source's value if type-compatible, else the reference's default;
    fields present only in the reference receive the reference's
    default." *)
Definition migrate_field (oldData : object) (reference : value)
    (key : string) : value :=
  match lookup key oldData with
  | Some v => if type_compatible v reference then v else reference
  | None => reference
  end.

(** Modelled from the spec: [migrateObject(object, oldData, defaultData)]
    ([utils/Utils] is not among the sources).  It walks the fields of
    [object], never those of [oldData] ("fields present only in the
    source are dropped silently"), and assigns each of them in place;
    it never throws. *)
Definition migrateObject (target oldData defaultData : object) : object :=
  fold_left
    (fun o key => set key (migrate_field oldData (get defaultData key) key) o)
    (keys target) target.

(** The two calls of the sources pass the same object as [object] and as
    [defaultData] ([migrateObject(this, obj, this)]): the reference value
    of a field is then read from the object under mutation, at the
    moment the field is visited. *)
Definition migrateObject_self (target oldData : object) : object :=
  fold_left
    (fun o key => set key (migrate_field oldData (get o key) key) o)
    (keys target) target.

End Utils.

(* ================================================================== *)
(** ** models/MediaTypeModel.ts *)

Module MediaTypeModel.

(** The abstract methods a variant supplies; each receives [this]. *)
Record methods : Type := Methods {
  getMediaType : object -> MediaType.t;
  getSummary : object -> string;
  getTags : object -> list string
}.

(** [protected constructor()]: the assignments to a fresh [this]. *)
Definition constructor : object :=
  spread
    [ ("type", Prim (Str ""));
      ("subType", Prim (Str ""));
      ("title", Prim (Str ""));
      ("englishTitle", Prim (Str ""));
      ("year", Prim (Str ""));
      ("dataSource", Prim (Str ""));
      ("url", Prim (Str ""));
      ("id", Prim (Str ""));
      ("apiTags", Prim Undefined);
      ("genres", Prim Undefined);
      ("userData", Object []);
      ("personalRating", Prim Undefined);
      ("personalStatus", Prim Undefined);
      ("personalTags", Prim Undefined) ]
    [].

(** [structuredClone] on immutable values rebuilds every node.  (What
    the rebuilt nodes share with the original is the subject of module
    [Store] below.) *)
Fixpoint structuredClone (v : value) : value :=
  match v with
  | Prim p => Prim p
  | Array xs => Array (map structuredClone xs)
  | Object fs => Object (map (fun kv => (fst kv, structuredClone (snd kv))) fs)
  end.

Definition getWithOutUserData (this : object) : object :=
  let copy := own_props (structuredClone (Object this)) in
  delete "userData" copy.

Definition toMetaDataObject (M : methods) (this : object) : object :=
  set "tags" (Prim (Str (join "/" (getTags M this))))
    (spread (own_props (get this "userData"))
       (spread (getWithOutUserData this) [])).

End MediaTypeModel.

(* ================================================================== *)
(** ** models/GameModel.ts *)

Module GameModel.

(** The state of [this] when the field initialisers of the constructor
    have run (up to and including [this.userData = {...}]). *)
Definition initialised : object :=
  spread
    [ ("tags", Array []);
      ("genres", Array []);
      ("onlineRating", Prim (Number 0));
      ("platforms", Array []);
      ("developers", Array []);
      ("publishers", Array []);
      ("music", Array []);
      ("image", Prim (Str ""));
      ("website", Prim (Str ""));
      ("description", Prim (Str ""));
      ("released", Prim (Boolean false));
      ("releaseDate", Prim (Str ""));
      ("apiTags", Array []);
      ("userData",
        Object [ ("played", Prim (Boolean false));
                 ("personalRating", Prim (Number 0));
                 ("personalStatus", Prim Undefined);
                 ("personalTags", Prim Undefined) ]) ]
    MediaTypeModel.constructor.

Definition getMediaType (this : object) : MediaType.t := MediaType.Game.

Definition getSummary (this : object) : string :=
  (str_add_val (val_add_str (get this "englishTitle") " (") (get this "year")
     ++ ")")%string.

Section Constructor.

(** [migrateObject] is imported from [utils/Utils].  Both calls pass the
    same object as target and as reference, so a call is a function
    of that object and of [obj]. *)
Variable migrateObject : object -> object -> object.

(** The instance [constructor(obj)] leaves when it runs to its end.
    Whether it does is the matter of [new_with] below. *)
Definition constructor_with (obj : object) : object :=
  let this := initialised in
  let this := migrateObject this obj in
  let this :=
    if negb (hasOwnProperty obj "userData")
    then set "userData"
           (Object (migrateObject (own_props (get this "userData")) obj))
           this
    else this in
  set "type" (Prim (Str (MediaType.to_string (getMediaType this)))) this.

(** [new GameModel(obj)]: the instance, or [None] when the constructor
    throws.  The guard [obj.hasOwnProperty('userData')] is a method call
    on the input: an input that has a key [hasOwnProperty] of its own
    holds data under it, not a function, and the call throws a
    [TypeError] once the first migration is done. *)
Definition new_with (obj : object) : option object :=
  let this := initialised in
  let this := migrateObject this obj in
  if hasOwnProperty obj "hasOwnProperty" then None
  else
    let this :=
      if negb (hasOwnProperty obj "userData")
      then set "userData"
             (Object (migrateObject (own_props (get this "userData")) obj))
             this
      else this in
    Some (set "type" (Prim (Str (MediaType.to_string (getMediaType this)))) this).

End Constructor.

(** The constructor, with [migrateObject] as the spec describes it. *)
Definition constructor : object -> object :=
  constructor_with Utils.migrateObject_self.

Definition new : object -> option object :=
  new_with Utils.migrateObject_self.

Section Tags.

(** [mediaDbTag] is a constant of [utils/Utils], which is not among the
    sources; the development is parametric in it. *)
Variable mediaDbTag : string.

Definition getTags (this : object) : list string := [mediaDbTag; "game"].

Definition methods : MediaTypeModel.methods :=
  MediaTypeModel.Methods getMediaType getSummary getTags.

End Tags.

End GameModel.

(* ================================================================== *)
(** ** The settings module: default property mappings *)

Module Settings.

(** Modelled from the spec: [PropertyMappingOption], [PropertyMapping]
    and [PropertyMappingModel] ([settings/PropertyMapping] is not among
    the sources).  "Each [PropertyMapping] is [{ key, newKey, mapping:
    Default|Remap|Remove, locked }]"; a [PropertyMappingModel] "owns
    [type] and an ordered sequence of [PropertyMapping] entries", empty
    when the model is created. *)
Inductive PropertyMappingOption : Type := Default | Remap | Remove.

Record PropertyMapping : Type := new_PropertyMapping {
  key : string;
  newKey : string;
  mapping : PropertyMappingOption;
  locked : bool
}.

Record PropertyMappingModel : Type := Build_PropertyMappingModel {
  type : MediaType.t;
  properties : list PropertyMapping
}.

Definition new_PropertyMappingModel (mediaType : MediaType.t)
  : PropertyMappingModel :=
  Build_PropertyMappingModel mediaType [].

(** [propertyMappingModel.properties.push(p)]. *)
Definition push_property (m : PropertyMappingModel) (p : PropertyMapping)
  : PropertyMappingModel :=
  Build_PropertyMappingModel (type m) (properties m ++ [p]).

Definition lockedPropertyMappings : list string := ["type"; "id"; "dataSource"].

(** [array.contains(x)]. *)
Definition contains (xs : list string) (x : string) : bool :=
  existsb (String.eqb x) xs.

(** Of the settings object only [propertyMappingModels] is computed; the
    other fields are the constants of [DEFAULT_SETTINGS]. *)
Record MediaDbPluginSettings : Type := Build_Settings {
  propertyMappingModels : list PropertyMappingModel
}.

Section GetDefaultSettings.

(** [MEDIA_TYPES] and [createMediaTypeModelFromMediaType] belong to
    [utils/MediaTypeManager], which is not among the sources.  A model
    is its methods together with its fields. *)
Variable MEDIA_TYPES : list MediaType.t.
Variable createMediaTypeModelFromMediaType :
  object -> MediaType.t -> MediaTypeModel.methods * object.

Definition getDefaultSettings : MediaDbPluginSettings :=
  let propertyMappingModels :=
    fold_left
      (fun propertyMappingModels mediaType =>
         let model := createMediaTypeModelFromMediaType [] mediaType in
         let metadataObj :=
           MediaTypeModel.toMetaDataObject (fst model) (snd model) in
         let propertyMappingModel := new_PropertyMappingModel mediaType in
         let propertyMappingModel :=
           fold_left
             (fun pmm key =>
                push_property pmm
                  (new_PropertyMapping key "" Default
                     (contains lockedPropertyMappings key)))
             (keys metadataObj) propertyMappingModel in
         propertyMappingModels ++ [propertyMappingModel])
      MEDIA_TYPES [] in
  Build_Settings propertyMappingModels.

End GetDefaultSettings.

End Settings.

(* ================================================================== *)
(** ** BangumiAPI.getById: selection of the variant constructor

    Both revisions fetch a subject and dispatch on its numeric [type].
    What is modelled is the dispatch: which constructor the call reaches,
    or which error it throws.  The argument object handed to the
    constructor is assembled from vendor fields and has no influence on
    the dispatch; whether assembling it throws is an input of the model
    ([fields_throw]).  The response is taken as received and parsed. *)

Module Bangumi.

Inductive model_class : Type :=
| MovieModel | SeriesModel | ComicMangaModel | GameModel
| BookModel | MusicReleaseModel | BoardGameModel.

(** The outcome of the promise: rejected with an [Error], or resolved
    with an instance of a variant. *)
Inductive outcome (A : Type) : Type :=
| Throw (message : string)
| Return (a : A).
Arguments Throw {A} message.
Arguments Return {A} a.

Definition bind {A B : Type} (m : outcome A) (k : A -> outcome B) : outcome B :=
  match m with
  | Throw msg => Throw msg
  | Return a => k a
  end.

Notation "x <- m ;; k" := (bind m (fun x => k))
  (at level 61, m at next level, right associativity).

(** A statement that may throw and yields nothing. *)
Definition may_throw (e : option string) : outcome unit :=
  match e with
  | Some msg => Throw msg
  | None => Return tt
  end.

Definition apiName : string := "BangumiAPI".

(** *** src/api/apis/BangumiAPI.ts *)
Module V1.

(** The first [switch (result.type)]: the local [type]. *)
Definition select_type (id : string) (result : object) : outcome string :=
  let t := get result "type" in
  if is_num t 1 then Return "comicManga"
  else if is_num t 2 then
    Return (if is_num (get result "category") 2 then "movie" else "series")
  else if is_num t 3 then
    Throw ("MDB | Music type not supported for id " ++ id)%string
  else if is_num t 4 then Return "game"
  else if is_num t 6 then
    Throw ("MDB | Real (live-action) type not supported for id " ++ id)%string
  else
    Throw ("MDB | Unknown media type " ++ to_string t ++ " for id " ++ id)%string.

(** The chain [if (type === 'movie') ... else if ...] and the final
    [throw]. *)
Definition select_model (id : string) (type : string) : outcome model_class :=
  if String.eqb type "movie" then Return MovieModel
  else if String.eqb type "series" then Return SeriesModel
  else if String.eqb type "comicManga" then Return ComicMangaModel
  else if String.eqb type "game" then Return GameModel
  else Throw ("MDB | Unknown media type for id " ++ id)%string.

Definition getById (id : string) (status : Z) (result : object)
    (fields_throw : option string) : outcome model_class :=
  if negb (Z.eqb status 200) then
    Throw ("MDB | Received status code " ++ number_to_string status
             ++ " from " ++ apiName ++ ".")%string
  else
    type <- select_type id result ;;
    _ <- may_throw fields_throw ;;
    select_model id type.

End V1.

(** *** The later revision (user collections, sub types) *)
Module V2.

(** The first [switch (bangumiType)]: the locals [type] and [subType]
    ([None] is [null]).  The statements are grouped as JavaScript
    parses them: in [case 6] the chain of [else if] ends after
    ['演出'], and the [if (subjectData.eps === 1)] that follows starts
    a chain of its own. *)
Definition select_type (subjectData : object)
  : MediaType.t * option string :=
  let bangumiType := get subjectData "type" in
  let platform := get subjectData "platform" in
  let eps := get subjectData "eps" in
  if is_num bangumiType 1 then
    (MediaType.Book,
     if is_str platform "漫画" then Some "Manga"
     else if is_str platform "小说" then Some "Novel"
     else if is_str platform "画集" then Some "Artbook"
     else if is_str platform "绘本" then Some "PictureBook"
     else if is_str platform "公式书" then Some "GuideBook"
     else if is_str platform "写真" then Some "PhotoBook"
     else Some "Other")
  else if is_num bangumiType 2 then
    if is_str platform "TV" then (MediaType.Series, Some "TV")
    else if is_str platform "OVA" then
      if is_num eps 1 then (MediaType.Movie, Some "OVA")
      else (MediaType.Series, Some "OVA")
    else if is_str platform "WEB" then (MediaType.Series, Some "WEB")
    else if is_str platform "剧场版" then (MediaType.Series, Some "")
    else if is_str platform "Movie" then (MediaType.Movie, Some "Anime")
    else if is_str platform "动态漫画" then (MediaType.Series, Some "MotionComic")
    else (MediaType.Series, Some "Other")
  else if is_num bangumiType 3 then (MediaType.MusicRelease, None)
  else if is_num bangumiType 4 then
    if is_str platform "游戏" then (MediaType.Game, Some "videoGame")
    else if is_str platform "扩展包" then (MediaType.Game, Some "DLC")
    else if is_str platform "桌游" then (MediaType.BoardGame, None)
    else (MediaType.Game, Some "videoGame")
  else if is_num bangumiType 6 then
    let '(type, subType) :=
      if is_str platform "电影" then (MediaType.Movie, None)
      else if is_str platform "日剧" then (MediaType.Series, Some "JPTV")
      else if is_str platform "华语剧" then (MediaType.Series, Some "CNTV")
      else if is_str platform "欧美剧" then (MediaType.Series, Some "ENTV")
      else if is_str platform "电视剧" then (MediaType.Series, Some "TV")
      else if is_str platform "演出" then (MediaType.Series, Some "Live")
      else (MediaType.Series, None) in
    if is_num eps 1 then (MediaType.Movie, subType)
    else if is_str platform "综艺" then (type, Some "Show")
    else (type, Some "Other")
  else
    (* console.warn(... Defaulting to Series.) *)
    (MediaType.Series, None).

(** The second [switch (type)]. *)
Definition select_model (id : string) (type : MediaType.t)
  : outcome model_class :=
  match type with
  | MediaType.Book => Return BookModel
  | MediaType.Movie => Return MovieModel
  | MediaType.Series => Return SeriesModel
  | MediaType.Game => Return GameModel
  | MediaType.MusicRelease => Return MusicReleaseModel
  | _ =>
      Throw ("MDB | BangumiAPI | Unrecognized or unsupported media type '"
               ++ MediaType.to_string type ++ "' received for ID " ++ id
               ++ ".")%string
  end.

(** The body of the [try].  The request for the user's collection
    entry that comes first never makes the call fail and plays no part
    in the dispatch; the third test of [subjectData] cannot fail after
    the second. *)
Definition getById_try (id : string) (status : Z) (subjectData : value)
    (fields_throw : option string) : outcome model_class :=
  if negb (Z.eqb status 200) then
    Throw ("MDB | BangumiAPI | Failed to fetch subject details for " ++ id
             ++ ". Status: " ++ number_to_string status)%string
  else if negb (truthy subjectData)
          || negb (truthy (get (own_props subjectData) "id")) then
    Throw ("MDB | BangumiAPI | Invalid or empty subject data received for "
             ++ id ++ ".")%string
  else
    let '(type, subType) := select_type (own_props subjectData) in
    _ <- may_throw fields_throw ;;
    select_model id type.

(** [catch (error) { throw new Error(...) }]. *)
Definition getById (id : string) (status : Z) (subjectData : value)
    (fields_throw : option string) : outcome model_class :=
  match getById_try id status subjectData fields_throw with
  | Throw message =>
      Throw ("MDB | BangumiAPI | Failed to fetch data for ID " ++ id
               ++ ". Error: " ++ message)%string
  | Return model => Return model
  end.

End V2.


End Bangumi.

(* ================================================================== *)
(** ** Objects in the store: sharing and [structuredClone]

    Whether mutating a copy can change the original is a question about
    references, which immutable values cannot express.  In this module
    arrays and objects live in cells of a heap and a property holds
    either a primitive or the address of a cell. *)

Module Store.

Definition loc : Type := nat.

Inductive ref : Type :=
| RPrim (p : prim)
| RLoc (l : loc).

Inductive cell : Type :=
| CArray (xs : list ref)
| CObject (fs : list (string * ref)).

(** A cell's address is its index; allocation appends a cell. *)
Definition heap : Type := list cell.

Definition refs_of (c : cell) : list ref :=
  match c with
  | CArray xs => xs
  | CObject fs => map snd fs
  end.

(** Overwriting the cell at [l]: every mutation of an array or object
    ([o.k = v], [delete o.k], [a.push(x)], [a[i] = x]) is one. *)
Fixpoint write (l : loc) (c : cell) (h : heap) : heap :=
  match h, l with
  | [], _ => []
  | _ :: h', O => c :: h'
  | c0 :: h', S l' => c0 :: write l' c h'
  end.

Fixpoint clone_list (clone : heap -> ref -> option (heap * ref))
    (rs : list ref) (h : heap) : option (heap * list ref) :=
  match rs with
  | [] => Some (h, [])
  | r :: rs' =>
      match clone h r with
      | Some (h1, r1) =>
          match clone_list clone rs' h1 with
          | Some (h2, rs2) => Some (h2, r1 :: rs2)
          | None => None
          end
      | None => None
      end
  end.

(** [structuredClone(r)]: primitives are returned as they are; for an
    array or a plain object the members are cloned first and a new cell
    is allocated for the result.  [fuel] bounds the nesting followed;
    the records of this program are trees (scalars, sequences of
    strings and the one [userData] object). *)
Fixpoint structuredClone (fuel : nat) (h : heap) (r : ref)
  : option (heap * ref) :=
  match r with
  | RPrim p => Some (h, RPrim p)
  | RLoc l =>
      match fuel with
      | O => None
      | S fuel' =>
          match nth_error h l with
          | Some (CArray xs) =>
              match clone_list (structuredClone fuel') xs h with
              | Some (h', xs') => Some (h' ++ [CArray xs'], RLoc (length h'))
              | None => None
              end
          | Some (CObject fs) =>
              match clone_list (structuredClone fuel') (map snd fs) h with
              | Some (h', vs') =>
                  Some (h' ++ [CObject (combine (map fst fs) vs')],
                        RLoc (length h'))
              | None => None
              end
          | None => None
          end
      end
  end.

(** [getWithOutUserData()] on the instance at address [this]. *)
Definition getWithOutUserData (fuel : nat) (h : heap) (this : loc)
  : option (heap * loc) :=
  match structuredClone fuel h (RLoc this) with
  | Some (h', RLoc copy) =>
      match nth_error h' copy with
      | Some (CObject fs) =>
          let fs' :=
            filter (fun kv => negb (String.eqb (fst kv) "userData")) fs in
          Some (write copy (CObject fs') h', copy)
      | _ => None
      end
  | _ => None
  end.

Section All2.

Context {A B : Type}.
Variable P : A -> B -> Prop.

(** Two lists of equal length, related member by member. *)
Fixpoint all2 (xs : list A) (ys : list B) {struct xs} : Prop :=
  match xs, ys with
  | [], [] => True
  | x :: xs', y :: ys' => P x y /\ all2 xs' ys'
  | _, _ => False
  end.

End All2.

(** The value held at a reference: [repr h v r] says that, in [h],
    [r] is the primitive [v] or the address of a cell whose members
    hold the members of [v], under the same keys and in the same
    order. *)
Fixpoint repr (h : heap) (v : value) (r : ref) {struct v} : Prop :=
  match v with
  | Prim p => r = RPrim p
  | Array xs =>
      exists l rs, r = RLoc l /\ nth_error h l = Some (CArray rs) /\
        all2 (repr h) xs rs
  | Object fs =>
      exists l rs, r = RLoc l /\ nth_error h l = Some (CObject rs) /\
        all2 (fun kv kr => fst kv = fst kr /\ repr h (snd kv) (snd kr)) fs rs
  end.

(** Nesting depth of a value: the fuel a clone of it needs. *)
Fixpoint depth (v : value) : nat :=
  match v with
  | Prim _ => 0
  | Array xs => S (fold_right (fun x d => Nat.max (depth x) d) 0 xs)
  | Object fs => S (fold_right (fun kv d => Nat.max (depth (snd kv)) d) 0 fs)
  end.

(** The cells a reference leads to. *)
Inductive reachable (h : heap) : ref -> loc -> Prop :=
| reach_here : forall l, reachable h (RLoc l) l
| reach_step : forall l c r l',
    nth_error h l = Some c -> In r (refs_of c) -> reachable h r l' ->
    reachable h (RLoc l) l'.

(** A primitive, or an address in the interval [[n, b)]. *)
Definition ref_in (n b : nat) (r : ref) : Prop :=
  match r with
  | RPrim _ => True
  | RLoc l => n <= l < b
  end.

(** From address [n] on, a cell refers only to cells between [n] and
    itself: what was allocated from [n] on is closed and refers to
    nothing older. *)
Definition fresh_from (n : nat) (h : heap) : Prop :=
  forall l c, n <= l -> nth_error h l = Some c ->
    Forall (ref_in n l) (refs_of c).

Definition extends (h h' : heap) : Prop := exists new, h' = h ++ new.

(** What a clone function guarantees: it only allocates, what it
    allocates is fresh, and so is the reference it returns. *)
Definition clone_ok (clone : heap -> ref -> option (heap * ref)) : Prop :=
  forall h r h' r', clone h r = Some (h', r') ->
    extends h h' /\ fresh_from (length h) h' /\
    ref_in (length h) (length h') r'.

(** Cloning succeeds on a value held in the store, given fuel for its
    depth, and the clone holds the same value. *)
Definition clones (v : value) : Prop :=
  forall h r fuel, repr h v r -> depth v <= fuel ->
    exists h' r', structuredClone fuel h r = Some (h', r') /\ repr h' v r'.

End Store.

(* ================================================================== *)
(** ** Notions the specification uses *)

(** The merge of two objects in the words of the spec: all fields of [a],
    each with the value [b] gives it when [b] has the field too, followed
    by the fields only [b] has. *)
Definition merge (a b : object) : object :=
  map (fun kv => (fst kv, match lookup (fst kv) b with
                          | Some w => w
                          | None => snd kv
                          end)) a
  ++ filter (fun kv => negb (hasOwnProperty a (fst kv))) b.

(** A fully populated Game instance: exactly the declared fields, in
    declaration order, each holding a value of its field's type, and the
    variant's own [type]. *)
Definition populated (r : object) : Prop :=
  keys r = keys GameModel.initialised /\
  get r "type" = Prim (Str (MediaType.to_string MediaType.Game)) /\
  Forall (fun k => Utils.type_compatible (get r k) (get GameModel.initialised k) = true)
    (keys GameModel.initialised).

(** An object rebuilt field by field: same keys, same order. *)
Definition map_fields (F : string -> value -> value) (o : object) : object :=
  map (fun kv => (fst kv, F (fst kv) (snd kv))) o.

(** What [migrateObject] makes of an object whose fields serve as their
    own reference: each field migrated against the value it holds. *)
Definition migrated_fields (oldData target : object) : object :=
  map_fields (fun k v => Utils.migrate_field oldData v k) target.

(** The value the constructor of [GameModel] leaves in the field [k],
    initialised to [d], when it is given [obj]. *)
Definition constructed_field (obj : object) (k : string) (d : value) : value :=
  if String.eqb k "type" then Prim (Str (MediaType.to_string MediaType.Game))
  else if String.eqb k "userData" && negb (hasOwnProperty obj "userData")
  then Object (migrated_fields obj (own_props d))
  else Utils.migrate_field obj d k.

(** The export payload of the Game record constructed from [obj]. *)
Definition exported (mediaDbTag : string) (obj : object) : object :=
  MediaTypeModel.toMetaDataObject (GameModel.methods mediaDbTag)
    (GameModel.constructor obj).

(** The record's non-[userData] fields, in the words of the spec. *)
Definition non_userData (this : object) : object :=
  filter (fun kv => negb (String.eqb (fst kv) "userData")) this.

(** The field names of the [userData] object of a Game record. *)
Definition userData_keys : list string :=
  keys (own_props (get GameModel.initialised "userData")).

(* ================================================================== *)
(** ** The settings tab: saving a property mapping model *)

Module SettingTab.

Import Settings.

(** [model2.type === model.type], on the strings behind the kinds. *)
Definition same_type (a b : PropertyMappingModel) : bool :=
  String.eqb (MediaType.to_string (type a)) (MediaType.to_string (type b)).

(** The [save] callback of [display()]: the list of models is rebuilt,
    [model] taking the place of every model of its kind.  (The notice
    and the write to disk that follow are not modelled.) *)
Definition save (settings : MediaDbPluginSettings) (model : PropertyMappingModel)
  : MediaDbPluginSettings :=
  let propertyMappingModels :=
    fold_left
      (fun propertyMappingModels model2 =>
         if same_type model2 model
         then propertyMappingModels ++ [model]
         else propertyMappingModels ++ [model2])
      (Settings.propertyMappingModels settings) [] in
  Build_Settings propertyMappingModels.

End SettingTab.

(* ================================================================== *)
(** ** models/GameModel.ts, the later revision

    The second revision of the class renames [music] to [composer] and
    adds the staff fields; the constructor is otherwise the same. *)

Module GameModel2.

Definition initialised : object :=
  spread
    [ ("tags", Array []);
      ("genres", Array []);
      ("onlineRating", Prim (Number 0));
      ("platforms", Array []);
      ("developers", Array []);
      ("publishers", Array []);
      ("composer", Array []);
      ("image", Prim (Str ""));
      ("website", Prim (Str ""));
      ("description", Prim (Str ""));
      ("released", Prim (Boolean false));
      ("releaseDate", Prim (Str ""));
      ("apiTags", Array []);
      ("director", Array []);
      ("producer", Array []);
      ("supervisor", Array []);
      ("designer", Array []);
      ("programmer", Array []);
      ("soundDirector", Array []);
      ("writer", Array []);
      ("cast", Array []);
      ("artist", Array []);
      ("userData",
        Object [ ("played", Prim (Boolean false));
                 ("personalRating", Prim (Number 0));
                 ("personalStatus", Prim Undefined);
                 ("personalTags", Prim Undefined) ]) ]
    MediaTypeModel.constructor.

Definition getMediaType (this : object) : MediaType.t := MediaType.Game.

Definition getSummary (this : object) : string :=
  (str_add_val (val_add_str (get this "englishTitle") " (") (get this "year")
     ++ ")")%string.

Section Constructor.

Variable migrateObject : object -> object -> object.

(** [constructor(obj)]. *)
Definition constructor_with (obj : object) : object :=
  let this := initialised in
  let this := migrateObject this obj in
  let this :=
    if negb (hasOwnProperty obj "userData")
    then set "userData"
           (Object (migrateObject (own_props (get this "userData")) obj))
           this
    else this in
  set "type" (Prim (Str (MediaType.to_string (getMediaType this)))) this.

(** [new GameModel(obj)] of the later revision: the instance, or [None] when the constructor
    throws.  The guard [obj.hasOwnProperty('userData')] is a method call
    on the input: an input that has a key [hasOwnProperty] of its own
    holds data under it, not a function, and the call throws a
    [TypeError] once the first migration is done. *)
Definition new_with (obj : object) : option object :=
  let this := initialised in
  let this := migrateObject this obj in
  if hasOwnProperty obj "hasOwnProperty" then None
  else
    let this :=
      if negb (hasOwnProperty obj "userData")
      then set "userData"
             (Object (migrateObject (own_props (get this "userData")) obj))
             this
      else this in
    Some (set "type" (Prim (Str (MediaType.to_string (getMediaType this)))) this).

End Constructor.

Definition constructor : object -> object :=
  constructor_with Utils.migrateObject_self.

Definition new : object -> option object :=
  new_with Utils.migrateObject_self.

End GameModel2.

(* ================================================================== *)
(** ** BangumiAPI: search, and the helpers of [getById]

    Errors the engine raises itself (reading a property of [null],
    calling what is not a function) are thrown with the message
    [TypeError]; the engine's wording is not modelled. *)

Module BangumiV1.

Import Bangumi.

Definition TypeError : string := "TypeError".

(** [a || b]. *)
Definition or_else (a b : value) : value := if truthy a then a else b.

(** [v.k]: reading a property of [undefined] or [null] throws; a
    primitive, and an array for a key that is no index, has none. *)
Definition prop (v : value) (k : string) : outcome value :=
  match v with
  | Prim Undefined | Prim Null => Throw TypeError
  | _ => Return (get (own_props v) k)
  end.

(** [v?.k]. *)
Definition prop_opt (v : value) (k : string) : value :=
  match v with
  | Prim Undefined | Prim Null => Prim Undefined
  | _ => get (own_props v) k
  end.

(** Whether a value can be printed.  In parsed JSON an object that
    has a [toString] of its own holds data under it, not a function:
    calling it throws, and so does printing an array that holds such an
    object. *)
Fixpoint printable (v : value) : bool :=
  match v with
  | Prim _ => true
  | Array xs => forallb printable xs
  | Object fs => negb (hasOwnProperty fs "toString")
  end.

(** [v.toString()]. *)
Definition toString (v : value) : outcome string :=
  match v with
  | Prim Undefined | Prim Null => Throw TypeError
  | _ => if printable v then Return (to_string v) else Throw TypeError
  end.

(** [mapStatus(status)]. *)
Definition mapStatus (status : value) : value :=
  if is_str status "Air" then Prim (Str "Ongoing")
  else if is_str status "NA" then Prim (Str "Not yet aired")
  else if is_str status "End" then Prim (Str "Completed")
  else status.

Section SearchByTitle.

(** [s.substring(0, 4)] counts UTF-16 code units; it is a parameter. *)
Variable substring_0_4 : string -> string.

(** [result.air_date ? result.air_date.substring(0, 4) : '']. *)
Definition year_of (air_date : value) : outcome string :=
  if truthy air_date then
    match air_date with
    | Prim (Str s) => Return (substring_0_4 s)
    | _ => Throw TypeError
    end
  else Return "".

(** The body of the loop for one element of [data.list]: [None] is
    [continue]. *)
Definition search_result (result : value)
  : outcome (option (model_class * object)) :=
  t <- prop result "type" ;;
  let r := own_props result in
  let type :=
    if is_num t 1 then Some "comicManga"
    else if is_num t 2 then
      Some (if is_num (get r "category") 2 then "movie" else "series")
    else if is_num t 3 then None
    else if is_num t 4 then Some "game"
    else None in
  match type with
  | None => Return None
  | Some type =>
      year <- year_of (get r "air_date") ;;
      id <- toString (get r "id") ;;
      let args : object :=
        [ ("type", Prim (Str type));
          ("title", or_else (get r "name_cn") (get r "name"));
          ("englishTitle", get r "name");
          ("year", Prim (Str year));
          ("dataSource", Prim (Str apiName));
          ("id", Prim (Str id));
          ("image", or_else (prop_opt (get r "images") "medium") (Prim (Str ""))) ] in
      if String.eqb type "movie" then Return (Some (MovieModel, args))
      else if String.eqb type "series" then Return (Some (SeriesModel, args))
      else if String.eqb type "comicManga" then Return (Some (ComicMangaModel, args))
      else if String.eqb type "game" then Return (Some (GameModel, args))
      else Return None
  end.

Fixpoint search_loop (results : list value) (ret : list (model_class * object))
  : outcome (list (model_class * object)) :=
  match results with
  | [] => Return ret
  | result :: results' =>
      m <- search_result result ;;
      search_loop results' (match m with
                         | Some model => ret ++ [model]
                         | None => ret
                         end)
  end.

(** [searchByTitle(title)], from the response on: its status and its
    parsed body.  An array is iterated; the characters of a string have
    no [type] and are all skipped; anything else that is truthy and has
    no [length] of 0 is not iterable. *)
Definition searchByTitle (status : Z) (data : value)
  : outcome (list (model_class * object)) :=
  if negb (Z.eqb status 200) then
    Throw ("MDB | Received status code " ++ number_to_string status
             ++ " from " ++ apiName ++ ".")%string
  else
    results <- prop data "list" ;;
    if negb (truthy results) then Return []
    else
      match results with
      | Array [] => Return []
      | Array xs => search_loop xs []
      | Prim (Str _) => Return []
      | Object fs =>
          if is_num (get fs "length") 0 then Return [] else Throw TypeError
      | _ => Throw TypeError
      end.

End SearchByTitle.

End BangumiV1.

Module BangumiV2.

Import Bangumi.

Definition TypeError : string := BangumiV1.TypeError.

(** [s.endsWith(suffix)]. *)
Fixpoint endsWith (s suffix : string) : bool :=
  String.eqb s suffix
  || match s with
     | EmptyString => false
     | String _ s' => endsWith s' suffix
     end.

(** [s.split('-')[0]]: what precedes the first dash. *)
Fixpoint before_dash (s : string) : string :=
  match s with
  | EmptyString => EmptyString
  | String c s' => if Ascii.eqb c "-"%char then EmptyString
                   else String c (before_dash s')
  end.

Section Constructor.

(** [String.prototype.trim] removes Unicode white space; it is a
    parameter. *)
Variable trim : string -> string.

Definition default_apiUrl : string := "https://bangumi.mynanase.workers.dev/".

(** The [apiUrl] the constructor sets.  [settings] is [None] while the
    plugin's settings are not loaded, and else holds
    [settings.bangumiProxyUrl]. *)
Definition constructor_apiUrl (settings : option string) : string :=
  match settings with
  | Some bangumiProxyUrl =>
      if negb (String.eqb bangumiProxyUrl "")
         && negb (String.eqb (trim bangumiProxyUrl) "")
      then
        let proxyUrl := trim bangumiProxyUrl in
        if negb (endsWith proxyUrl "/") then (proxyUrl ++ "/")%string
        else proxyUrl
      else default_apiUrl
  | None => default_apiUrl
  end.

End Constructor.

Section SearchByTitle.

(** The constructors of the variants other than [GameModel] are not
    among the sources; whether one throws on an argument is a
    parameter. *)
Variable constructor_throws : model_class -> object -> bool.

(** The first [switch (result.type)] of the loop: [None] is [continue]. *)
Definition search_type (t : value) : option MediaType.t :=
  if is_num t 1 then Some MediaType.Book
  else if is_num t 2 then Some MediaType.Series
  else if is_num t 3 then Some MediaType.MusicRelease
  else if is_num t 4 then Some MediaType.Game
  else if is_num t 6 then Some MediaType.Series
  else None.

(** The second [switch (type)], inside the inner [try]. *)
Definition search_model (type : MediaType.t) : option model_class :=
  match type with
  | MediaType.Movie => Some MovieModel
  | MediaType.Series => Some SeriesModel
  | MediaType.Game => Some GameModel
  | MediaType.BoardGame => Some BoardGameModel
  | MediaType.MusicRelease => Some MusicReleaseModel
  | MediaType.Book => Some BookModel
  | _ => None
  end.

(** [result.air_date ? result.air_date.split('-')[0] : '']. *)
Definition year_of (air_date : value) : outcome string :=
  if truthy air_date then
    match air_date with
    | Prim (Str s) => Return (before_dash s)
    | _ => Throw TypeError
    end
  else Return "".

(** The body of the loop for one element of [data.list]. *)
Definition search_result (result : value)
  : outcome (option (model_class * object)) :=
  id <- BangumiV1.prop result "id" ;;
  let r := own_props result in
  if negb (truthy id) || negb (truthy (get r "type")) then Return None
  else
    year <- year_of (get r "air_date") ;;
    match search_type (get r "type") with
    | None => Return None
    | Some type =>
        idString <- BangumiV1.toString id ;;
        let modelData : object :=
          [ ("type", Prim (Str (MediaType.to_string type)));
            ("subType", Prim Undefined);
            ("title", BangumiV1.or_else (get r "name_cn") (get r "name"));
            ("englishTitle", get r "name");
            ("year", Prim (Str year));
            ("dataSource", Prim (Str apiName));
            ("id", Prim (Str idString));
            ("image",
              BangumiV1.or_else
                (BangumiV1.or_else (BangumiV1.prop_opt (get r "images") "large")
                   (BangumiV1.prop_opt (get r "images") "medium"))
                (Prim (Str ""))) ] in
        match search_model type with
        | None => Return None
        | Some class =>
            (* try { model = new ...; results.push(model) } catch { console.error } *)
            if constructor_throws class modelData then Return None
            else Return (Some (class, modelData))
        end
    end.

Fixpoint search_loop (items : list value) (results : list (model_class * object))
  : outcome (list (model_class * object)) :=
  match items with
  | [] => Return results
  | result :: items' =>
      m <- search_result result ;;
      search_loop items' (match m with
                         | Some model => results ++ [model]
                         | None => results
                         end)
  end.

(** [searchByTitle(title)], from the response on ([None]: the request
    itself threw).  Whatever is thrown inside the outer [try] is caught
    and the empty list returned. *)
Definition searchByTitle (response : option (Z * value))
  : list (model_class * object) :=
  match response with
  | None => []
  | Some (status, data) =>
      if Z.eqb status 404 then []
      else if negb (Z.eqb status 200) then []
      else if negb (truthy data) then []
      else
        match get (own_props data) "list" with
        | Array xs =>
            match search_loop xs [] with
            | Return results => results
            | Throw _ => []
            end
        | _ => []
        end
  end.

End SearchByTitle.

(** Top five tags: [subjectData.tags.slice(0, 5).map(tag => tag.name)],
    or the empty list when [tags] is no array. *)
Fixpoint tag_names (tags : list value) : outcome (list value) :=
  match tags with
  | [] => Return []
  | tag :: tags' =>
      name <- BangumiV1.prop tag "name" ;;
      names <- tag_names tags' ;;
      Return (name :: names)
  end.

Definition apiTags (tags : value) : outcome (list value) :=
  match tags with
  | Array xs => tag_names (firstn 5 xs)
  | _ => Return []
  end.

(** [primaryTitle] and [englishTitle] of [getById], from
    [subjectData.name_cn] and [subjectData.name]. *)
Definition titles (name_cn name : value) : value * value :=
  let primaryTitle := BangumiV1.or_else name_cn name in
  let englishTitle := name in
  if truthy name_cn && truthy name then (name_cn, name)
  else if negb (truthy name_cn) && truthy name then (name, Prim (Str ""))
  else (primaryTitle, englishTitle).

(** [member.jobs?.some(job => roles.includes(job))]: no [jobs] is no
    match, and [some] exists on arrays only. *)
Definition has_job (roles : list string) (jobs : value) : outcome bool :=
  match jobs with
  | Prim Undefined | Prim Null => Return false
  | Array js =>
      Return (existsb (fun job => match job with
                                  | Prim (Str s) => existsb (String.eqb s) roles
                                  | _ => false
                                  end) js)
  | _ => Throw TypeError
  end.

Definition prim_eqb (p q : prim) : bool :=
  match p, q with
  | Undefined, Undefined | Null, Null => true
  | Boolean a, Boolean b => Bool.eqb a b
  | Number a, Number b => Z.eqb a b
  | Str a, Str b => String.eqb a b
  | _, _ => false
  end.

(** [names.add(name)] on the elements of a [Set] in insertion order.  A
    primitive is in the set when an equal one is; arrays and objects are
    compared by identity, and those of two members are never the same
    one. *)
Definition set_add (names : list value) (name : value) : list value :=
  match name with
  | Prim p =>
      if existsb (fun v => match v with
                           | Prim q => prim_eqb q p
                           | _ => false
                           end) names
      then names else names ++ [name]
  | _ => names ++ [name]
  end.

(** The callback of [staff.forEach] over the members, threading the
    set. *)
Fixpoint staff_loop (roles : list string) (staff : list value)
    (names : list value) : outcome (list value) :=
  match staff with
  | [] => Return names
  | member :: staff' =>
      jobs <- BangumiV1.prop member "jobs" ;;
      wanted <- has_job roles jobs ;;
      staff_loop roles staff'
        (if wanted then set_add names (get (own_props member) "name")
         else names)
  end.

(** [extractStaff(staff, roles)]: [Array.from(names)]. *)
Definition extractStaff (staff : value) (roles : list string)
  : outcome (list value) :=
  if negb (truthy staff) then Return []
  else
    match staff with
    | Array members => staff_loop roles members []
    | _ => Throw TypeError
    end.

Section ExtractInfoArray.

(** [trim], [includes] and [split] of strings are parameters. *)
Variable trim : string -> string.
Variable includes : string -> string -> bool.
Variable split : string -> string -> list string.

(** The separator of enumerations. *)
Definition separator : string := "、".

(** [targetKeys.includes(item.key)], for a truthy [item.key]. *)
Definition key_wanted (targetKeys : list string) (key : value) : bool :=
  truthy key &&
  match key with
  | Prim (Str s) => existsb (String.eqb s) targetKeys
  | _ => false
  end.

(** The callback of [item.value.map]: [typeof null] is ['object'], and
    reading [v] of [null] throws. *)
Definition sub_value (subItem : value) : outcome value :=
  match subItem with
  | Prim Null => Throw TypeError
  | Object fs =>
      if truthy (get fs "v") then Return (get fs "v")
      else Return (Prim (Str ""))
  | Prim (Str s) => Return (Prim (Str s))
  | _ => Return (Prim (Str ""))
  end.

Fixpoint sub_values (ys : list value) : outcome (list value) :=
  match ys with
  | [] => Return []
  | y :: ys' =>
      v <- sub_value y ;;
      vs <- sub_values ys' ;;
      Return (v :: vs)
  end.

(** What one element of the infobox adds to [values]. *)
Definition item_values (targetKeys : list string) (item : value)
  : outcome (list value) :=
  match item with
  | Array _ | Object _ =>
      if key_wanted targetKeys (get (own_props item) "key") then
        match get (own_props item) "value" with
        | Prim (Str s) =>
            if includes s separator then
              Return (map (fun x => Prim (Str x))
                        (filter (fun x => negb (String.eqb x ""))
                           (map trim (split s separator))))
            else Return [Prim (Str (trim s))]
        | Array ys =>
            subValues <- sub_values ys ;;
            Return (filter truthy subValues)
        | _ => Return []
        end
      else Return []
  | _ => Return []
  end.

Fixpoint extract_loop (targetKeys : list string) (infobox : list value)
    (values : list value) : outcome (list value) :=
  match infobox with
  | [] => Return values
  | item :: infobox' =>
      vs <- item_values targetKeys item ;;
      extract_loop targetKeys infobox' (values ++ vs)
  end.

Definition extractInfoArray (infobox : value) (targetKeys : list string)
  : outcome (list value) :=
  match infobox with
  | Array items => extract_loop targetKeys items []
  | _ => Return []
  end.

End ExtractInfoArray.

End BangumiV2.

(* ================================================================== *)
(** * Properties *)

(** ** Plain objects *)

Section ObjectFacts.

Implicit Types (o a b d : object) (k : string) (v w : value).

Lemma hasOwnProperty_In o k : hasOwnProperty o k = true <-> In k (keys o).
Proof.
  unfold hasOwnProperty, keys. rewrite existsb_exists, in_map_iff.
  split; intros [kv [H1 H2]]; exists kv.
  - apply String.eqb_eq in H2. auto.
  - split; [assumption | now apply String.eqb_eq].
Qed.

Lemma hasOwnProperty_false o k : hasOwnProperty o k = false <-> ~ In k (keys o).
Proof.
  rewrite <- hasOwnProperty_In. destruct (hasOwnProperty o k); intuition congruence.
Qed.

Lemma lookup_None o k : lookup k o = None <-> ~ In k (keys o).
Proof.
  induction o as [| [k' v'] o IH]; simpl.
  - intuition.
  - destruct (String.eqb k' k) eqn:E.
    + apply String.eqb_eq in E. intuition congruence.
    + apply String.eqb_neq in E. rewrite IH. intuition.
Qed.

Lemma lookup_In o k v : lookup k o = Some v -> In (k, v) o.
Proof.
  induction o as [| [k' v'] o IH]; simpl; [discriminate |].
  destruct (String.eqb k' k) eqn:E.
  - apply String.eqb_eq in E. intros [= ->]. subst. now left.
  - auto.
Qed.

Lemma hasOwnProperty_app a b k :
  hasOwnProperty (a ++ b) k = hasOwnProperty a k || hasOwnProperty b k.
Proof. unfold hasOwnProperty. apply existsb_app. Qed.

Lemma keys_set k v o :
  keys (set k v o) = if hasOwnProperty o k then keys o else keys o ++ [k].
Proof.
  unfold set, keys. destruct (hasOwnProperty o k).
  - rewrite map_map. apply map_ext. intros kv.
    now destruct (String.eqb (fst kv) k).
  - now rewrite map_app.
Qed.

Lemma hasOwnProperty_set k k' v o :
  hasOwnProperty (set k v o) k' = hasOwnProperty o k' || String.eqb k k'.
Proof.
  destruct (hasOwnProperty (set k v o) k') eqn:E.
  - apply hasOwnProperty_In in E. rewrite keys_set in E. symmetry.
    apply orb_true_iff.
    destruct (hasOwnProperty o k) eqn:Hk.
    + left. now apply hasOwnProperty_In.
    + apply in_app_or in E. destruct E as [E | [E | []]].
      * left. now apply hasOwnProperty_In.
      * right. now apply String.eqb_eq.
  - apply hasOwnProperty_false in E. rewrite keys_set in E. symmetry.
    apply orb_false_iff. split.
    + apply hasOwnProperty_false. intros Hin. apply E.
      destruct (hasOwnProperty o k); [assumption | apply in_or_app; now left].
    + apply String.eqb_neq. intros ->. apply E.
      destruct (hasOwnProperty o k') eqn:Hk.
      * now apply hasOwnProperty_In.
      * apply in_or_app. right. now left.
Qed.

Lemma lookup_app a b k :
  lookup k (a ++ b) = match lookup k a with Some v => Some v | None => lookup k b end.
Proof.
  induction a as [| [k' v'] a IH]; simpl; [reflexivity |].
  now destruct (String.eqb k' k).
Qed.

Lemma lookup_set_eq k v o : lookup k (set k v o) = Some v.
Proof.
  unfold set. destruct (hasOwnProperty o k) eqn:H.
  - induction o as [| [k' v'] o IH]; simpl in *; [discriminate |].
    destruct (String.eqb k' k) eqn:E; simpl; rewrite E; auto.
  - apply hasOwnProperty_false, lookup_None in H.
    rewrite lookup_app, H. simpl. now rewrite String.eqb_refl.
Qed.

Lemma lookup_set_neq k k' v o : k <> k' -> lookup k' (set k v o) = lookup k' o.
Proof.
  intros Hne. unfold set. destruct (hasOwnProperty o k).
  - induction o as [| [k0 v0] o IH]; simpl; [reflexivity |].
    destruct (String.eqb k0 k) eqn:E; simpl.
    + apply String.eqb_eq in E. subst k0.
      apply String.eqb_neq in Hne. now rewrite Hne.
    + now rewrite IH.
  - rewrite lookup_app. destruct (lookup k' o); [reflexivity |].
    simpl. apply String.eqb_neq in Hne. now rewrite Hne.
Qed.

Lemma get_set_eq k v o : get (set k v o) k = v.
Proof. unfold get. now rewrite lookup_set_eq. Qed.

Lemma get_set_neq k k' v o : k <> k' -> get (set k v o) k' = get o k'.
Proof. intros H. unfold get. now rewrite lookup_set_neq. Qed.

(** After [o[k] = v] every binding of [k] holds [v]. *)
Lemma set_bindings k v o w : In (k, w) (set k v o) -> w = v.
Proof.
  unfold set. destruct (hasOwnProperty o k) eqn:H.
  - rewrite in_map_iff. intros [[k0 v0] [Heq _]]. simpl in Heq.
    destruct (String.eqb k0 k) eqn:E.
    + congruence.
    + apply String.eqb_neq in E. congruence.
  - intros Hin. apply in_app_or in Hin. destruct Hin as [Hin | [Hin | []]].
    + apply hasOwnProperty_false in H. exfalso. apply H.
      unfold keys. apply in_map_iff. now exists (k, w).
    + congruence.
Qed.

Lemma NoDup_keys_set k v o : NoDup (keys o) -> NoDup (keys (set k v o)).
Proof.
  intros H. rewrite keys_set. destruct (hasOwnProperty o k) eqn:E; [assumption |].
  apply hasOwnProperty_false in E.
  apply NoDup_app; [assumption | repeat constructor; simpl; tauto |].
  intros x Hx [<- | []]. contradiction.
Qed.

Lemma NoDup_keys_spread a d : NoDup (keys d) -> NoDup (keys (spread a d)).
Proof.
  unfold spread. revert d.
  induction a as [| [k v] a IH]; simpl; intros d H; [assumption |].
  apply IH. now apply NoDup_keys_set.
Qed.

(** Spreading an object into an object with none of its keys appends
    it. *)
Lemma spread_fresh a d : NoDup (keys (d ++ a)) -> spread a d = d ++ a.
Proof.
  unfold spread. revert d.
  induction a as [| [k v] a IH]; simpl; intros d H.
  - now rewrite app_nil_r.
  - assert (Hk : hasOwnProperty d k = false).
    { apply hasOwnProperty_false. unfold keys in *. rewrite map_app in H. simpl in H.
      apply NoDup_remove_2 in H. intros Hin. apply H. apply in_or_app. now left. }
    unfold set at 2. rewrite Hk.
    rewrite IH; rewrite <- app_assoc; simpl; [reflexivity | assumption].
Qed.

Lemma delete_no_key k o : hasOwnProperty (delete k o) k = false.
Proof.
  apply hasOwnProperty_false. unfold keys, delete.
  rewrite in_map_iff. intros [[k0 v0] [Heq Hin]]. simpl in Heq. subst k0.
  apply filter_In in Hin. destruct Hin as [_ Hin]. simpl in Hin.
  now rewrite String.eqb_refl in Hin.
Qed.

Lemma lookup_delete_neq k k' o : k <> k' -> lookup k' (delete k o) = lookup k' o.
Proof.
  intros Hne. induction o as [| [k0 v0] o IH]; simpl; [reflexivity |].
  destruct (String.eqb k0 k) eqn:E; simpl.
  - apply String.eqb_eq in E. subst k0.
    apply String.eqb_neq in Hne. now rewrite Hne.
  - now rewrite IH.
Qed.

Lemma NoDup_keys_delete k o : NoDup (keys o) -> NoDup (keys (delete k o)).
Proof.
  unfold keys, delete. induction o as [| [k0 v0] o IH]; simpl; intros H.
  - constructor.
  - inversion H as [| ? ? Hnin Hnd]; subst.
    destruct (negb (String.eqb k0 k)); simpl; auto.
    constructor; auto.
    rewrite in_map_iff. intros [kv [Heq Hin]]. apply Hnin.
    apply filter_In in Hin. rewrite in_map_iff. exists kv. tauto.
Qed.

End ObjectFacts.

(** ** Spread is the merge of the spec *)

Section Merge.

Implicit Types (a b : object) (k : string) (v : value).

Lemma merge_nil_r a : merge a [] = a.
Proof.
  unfold merge. simpl. rewrite app_nil_r.
  rewrite <- (map_id a) at 2. apply map_ext. now intros [k v].
Qed.

Lemma merge_set_cons k v a b :
  ~ In k (keys b) -> merge (set k v a) b = merge a ((k, v) :: b).
Proof.
  intros Hk. pose proof (proj2 (lookup_None b k) Hk) as Hlk.
  assert (Hb : forall k0 v0, In (k0, v0) b -> String.eqb k k0 = false).
  { intros k0 v0 Hin. apply String.eqb_neq. intros ->. apply Hk.
    unfold keys. apply in_map_iff. now exists (k0, v0). }
  unfold merge. simpl filter.
  destruct (hasOwnProperty a k) eqn:Ha; simpl negb; cbv iota.
  - f_equal.
    + unfold set. rewrite Ha, map_map. apply map_ext. intros [k0 v0]. simpl.
      rewrite (String.eqb_sym k k0).
      destruct (String.eqb k0 k) eqn:E; simpl; [| reflexivity].
      apply String.eqb_eq in E. subst k0. now rewrite Hlk.
    + apply filter_ext_in. intros [k0 v0] Hin. simpl. f_equal.
      rewrite hasOwnProperty_set, (Hb _ _ Hin). apply orb_false_r.
  - assert (Ha' : forall k0 v0, In (k0, v0) a -> String.eqb k k0 = false).
    { intros k0 v0 Hin. apply String.eqb_neq. intros ->.
      apply hasOwnProperty_false in Ha. apply Ha.
      unfold keys. apply in_map_iff. now exists (k0, v0). }
    unfold set at 1. rewrite Ha, map_app. simpl. rewrite Hlk.
    rewrite <- app_assoc. simpl. f_equal.
    + apply map_ext_in. intros [k0 v0] Hin. simpl. now rewrite (Ha' _ _ Hin).
    + f_equal. apply filter_ext_in. intros [k0 v0] Hin. simpl. f_equal.
      rewrite hasOwnProperty_set, (Hb _ _ Hin). apply orb_false_r.
Qed.

(** The refinement: assigning the properties of [b] one after the
    other onto [a] computes [merge a b]. *)
Lemma spread_merge b : forall a, NoDup (keys b) -> spread b a = merge a b.
Proof.
  induction b as [| [k v] b IH]; intros a H.
  - now rewrite merge_nil_r.
  - inversion H as [| ? ? Hnin Hnd]; subst.
    change (spread ((k, v) :: b) a) with (spread b (set k v a)).
    rewrite IH by assumption. now apply merge_set_cons.
Qed.

End Merge.

(** ** [structuredClone] on values *)

Lemma structuredClone_id (v : value) : MediaTypeModel.structuredClone v = v.
Proof.
  induction v as [p | xs IH | fs IH] using value_ind; simpl.
  - reflexivity.
  - f_equal. induction IH as [| x xs Hx _ IHxs]; simpl; congruence.
  - f_equal. induction IH as [| [k x] fs Hx _ IHfs]; simpl in *; congruence.
Qed.

Lemma getWithOutUserData_delete (this : object) :
  MediaTypeModel.getWithOutUserData this = delete "userData" this.
Proof.
  unfold MediaTypeModel.getWithOutUserData.
  now rewrite structuredClone_id.
Qed.

(** ** The export payload *)

(** C1.  For a record instance (an object, so with distinct keys, whose
    [userData] is an object): [getWithOutUserData()] returns the record's
    non-[userData] fields, each with the record's value, and
    [toMetaDataObject()] is exactly the merge of those fields with the
    fields of [userData], merged in turn with the single field [tags]
    holding the elements of [getTags()] joined by ['/']: it has the same
    keys as that merge, each once, and the same value under each. *)
Theorem toMetaDataObject_is_merge :
  forall (M : MediaTypeModel.methods) (this userData : object),
    NoDup (keys this) ->
    lookup "userData" this = Some (Object userData) ->
    NoDup (keys userData) ->
    (forall k, lookup k (MediaTypeModel.getWithOutUserData this)
               = lookup k (non_userData this)) /\
    (forall k, lookup k (MediaTypeModel.toMetaDataObject M this)
               = lookup k
                   (merge (merge (non_userData this) userData)
                      [("tags",
                        Prim (Str (join "/" (MediaTypeModel.getTags M this))))])) /\
    NoDup (keys (MediaTypeModel.toMetaDataObject M this)).
Proof.
  intros M this ud Hnd Hud Hndu.
  assert (Hw : MediaTypeModel.getWithOutUserData this = non_userData this)
    by apply getWithOutUserData_delete.
  split; [intros k; now rewrite Hw | split].
  - intros k. f_equal. rewrite <- Hw.
    unfold MediaTypeModel.toMetaDataObject.
    assert (Hg : get this "userData" = Object ud) by (unfold get; now rewrite Hud).
    rewrite Hg. simpl own_props.
    rewrite (spread_fresh _ []).
    + simpl app. rewrite spread_merge by assumption.
      change (set "tags" ?v ?o) with (spread [("tags", v)] o).
      apply spread_merge. repeat constructor. simpl. tauto.
    + simpl app. rewrite getWithOutUserData_delete. now apply NoDup_keys_delete.
  - unfold MediaTypeModel.toMetaDataObject.
    apply NoDup_keys_set. do 2 apply NoDup_keys_spread. constructor.
Qed.

Lemma toMetaDataObject_keys_distinct (M : MediaTypeModel.methods) (this : object) :
  NoDup (keys (MediaTypeModel.toMetaDataObject M this)).
Proof.
  unfold MediaTypeModel.toMetaDataObject.
  apply NoDup_keys_set. do 2 apply NoDup_keys_spread. constructor.
Qed.

(** C10.  The export payload binds [tags] to [getTags().join('/')] and to
    nothing else: the computed string replaces a [tags] field of the
    variant and a [tags] entry of [userData] alike, whatever they hold. *)
Theorem toMetaDataObject_tags_computed :
  forall (M : MediaTypeModel.methods) (this : object),
    let tags := Prim (Str (join "/" (MediaTypeModel.getTags M this))) in
    lookup "tags" (MediaTypeModel.toMetaDataObject M this) = Some tags /\
    (forall v, In ("tags", v) (MediaTypeModel.toMetaDataObject M this) -> v = tags) /\
    NoDup (keys (MediaTypeModel.toMetaDataObject M this)).
Proof.
  intros M this tags. unfold MediaTypeModel.toMetaDataObject. fold tags.
  split; [apply lookup_set_eq | split].
  - intros v. apply set_bindings.
  - apply NoDup_keys_set. do 2 apply NoDup_keys_spread. constructor.
Qed.

(** ** Migration *)

Section Migration.

Implicit Types (a b o target oldData : object) (k : string) (v w : value).

Lemma lookup_middle a b k w :
  ~ In k (keys a) -> lookup k (a ++ (k, w) :: b) = Some w.
Proof.
  intros Ha. rewrite lookup_app. apply lookup_None in Ha. rewrite Ha.
  simpl. now rewrite String.eqb_refl.
Qed.

Lemma map_not_key a k v :
  ~ In k (keys a) ->
  map (fun kv => if String.eqb (fst kv) k then (fst kv, v) else kv) a = a.
Proof.
  intros Ha. rewrite <- (map_id a) at 2. apply map_ext_in.
  intros [k0 v0] Hin. simpl. destruct (String.eqb k0 k) eqn:E; [| reflexivity].
  apply String.eqb_eq in E. subst k0. exfalso. apply Ha.
  unfold keys. apply in_map_iff. now exists (k, v0).
Qed.

Lemma set_middle a b k v w :
  ~ In k (keys a) -> ~ In k (keys b) ->
  set k v (a ++ (k, w) :: b) = a ++ (k, v) :: b.
Proof.
  intros Ha Hb. unfold set.
  assert (H : hasOwnProperty (a ++ (k, w) :: b) k = true).
  { apply hasOwnProperty_In. unfold keys. rewrite map_app.
    apply in_or_app. right. now left. }
  rewrite H, map_app. simpl. rewrite String.eqb_refl. simpl.
  now rewrite !map_not_key.
Qed.

(** The in-place migration of an object against itself visits each
    field once and migrates it against the value it held. *)
Lemma migrateObject_self_fields oldData target :
  NoDup (keys target) ->
  Utils.migrateObject_self target oldData = migrated_fields oldData target.
Proof.
  unfold Utils.migrateObject_self, migrated_fields, map_fields.
  set (F := fun kv : string * value =>
              (fst kv, Utils.migrate_field oldData (snd kv) (fst kv))).
  assert (G : forall todo done, NoDup (keys (done ++ todo)) ->
            fold_left
              (fun o key => set key (Utils.migrate_field oldData (get o key) key) o)
              (keys todo) (map F done ++ todo)
            = map F done ++ map F todo).
  { induction todo as [| [k v] todo IH]; intros done Hnd; [reflexivity |].
    assert (Hd : ~ In k (keys (map F done))).
    { unfold keys in *. rewrite map_map. simpl. rewrite map_app in Hnd.
      apply NoDup_remove_2 in Hnd. intros Hin. apply Hnd.
      apply in_or_app. now left. }
    assert (Ht : ~ In k (keys todo)).
    { unfold keys in *. rewrite map_app in Hnd.
      apply NoDup_remove_2 in Hnd. intros Hin. apply Hnd.
      apply in_or_app. now right. }
    assert (Hk : get (map F done ++ (k, v) :: todo) k = v).
    { unfold get. now rewrite lookup_middle. }
    change (keys ((k, v) :: todo)) with (k :: keys todo).
    cbn [fold_left]. rewrite Hk.
    rewrite set_middle by assumption.
    specialize (IH (done ++ [(k, v)])).
    rewrite map_app, <- !app_assoc in IH. simpl in IH. apply IH.
    exact Hnd. }
  intros Hnd. apply (G target []). assumption.
Qed.

(** With a reference distinct from the target the reference's values
    are read instead; on an object with distinct keys the call
    [migrateObject(o, oldData, o)] agrees with it. *)
Lemma migrateObject_self_alias oldData target :
  NoDup (keys target) ->
  Utils.migrateObject_self target oldData
  = Utils.migrateObject target oldData target.
Proof.
  intros Hnd. rewrite migrateObject_self_fields by assumption.
  unfold Utils.migrateObject, migrated_fields, map_fields.
  set (F := fun kv : string * value =>
              (fst kv, Utils.migrate_field oldData (snd kv) (fst kv))).
  assert (G : forall todo done, NoDup (keys (done ++ todo)) ->
            (forall k, In k (keys todo) -> get target k = get (done ++ todo) k) ->
            fold_left
              (fun o key => set key (Utils.migrate_field oldData (get target key) key) o)
              (keys todo) (map F done ++ todo)
            = map F done ++ map F todo).
  { induction todo as [| [k v] todo IH]; intros done Hnd' Hget; [reflexivity |].
    assert (Hd0 : ~ In k (keys done)).
    { unfold keys in *. rewrite map_app in Hnd'.
      apply NoDup_remove_2 in Hnd'. intros Hin. apply Hnd'.
      apply in_or_app. now left. }
    assert (Hd : ~ In k (keys (map F done))).
    { unfold keys in *. now rewrite map_map. }
    assert (Ht : ~ In k (keys todo)).
    { unfold keys in *. rewrite map_app in Hnd'.
      apply NoDup_remove_2 in Hnd'. intros Hin. apply Hnd'.
      apply in_or_app. now right. }
    assert (Hk : get target k = v).
    { rewrite (Hget k (or_introl eq_refl)). unfold get.
      now rewrite lookup_middle. }
    change (keys ((k, v) :: todo)) with (k :: keys todo).
    cbn [fold_left]. rewrite Hk.
    rewrite set_middle by assumption.
    specialize (IH (done ++ [(k, v)])).
    rewrite map_app, <- !app_assoc in IH. simpl in IH. apply IH.
    - exact Hnd'.
    - intros k' Hk'. apply Hget. now right. }
  symmetry. apply (G target []); [assumption | reflexivity].
Qed.

Lemma migrate_field_absent oldData k v :
  hasOwnProperty oldData k = false -> Utils.migrate_field oldData v k = v.
Proof.
  intros H. apply hasOwnProperty_false, lookup_None in H.
  unfold Utils.migrate_field. now rewrite H.
Qed.

Lemma type_compatible_refl v : Utils.type_compatible v v = true.
Proof. destruct v as [[| | b | n | s] | xs | fs]; reflexivity. Qed.

(** A migrated field has the type of its reference. *)
Lemma migrate_field_compatible oldData k v :
  Utils.type_compatible (Utils.migrate_field oldData v k) v = true.
Proof.
  unfold Utils.migrate_field. destruct (lookup k oldData) as [w |].
  - destruct (Utils.type_compatible w v) eqn:E; [assumption |].
    apply type_compatible_refl.
  - apply type_compatible_refl.
Qed.

(** A field that already has the type of its reference is retained. *)
Lemma migrate_field_retained oldData k v w :
  lookup k oldData = Some w -> Utils.type_compatible w v = true ->
  Utils.migrate_field oldData v k = w.
Proof. intros H1 H2. unfold Utils.migrate_field. now rewrite H1, H2. Qed.

End Migration.

(** ** Objects rebuilt field by field *)

Section MapFields.

Variable F : string -> value -> value.
Implicit Types (o r : object) (k : string).

Lemma keys_map_fields o : keys (map_fields F o) = keys o.
Proof. unfold keys, map_fields. rewrite map_map. now apply map_ext. Qed.

Lemma lookup_map_fields o k :
  lookup k (map_fields F o) = option_map (F k) (lookup k o).
Proof.
  induction o as [| [k0 v0] o IH]; simpl; [reflexivity |].
  destruct (String.eqb k0 k) eqn:E; [| assumption].
  apply String.eqb_eq in E. now subst.
Qed.

Lemma get_map_fields o k :
  In k (keys o) -> get (map_fields F o) k = F k (get o k).
Proof.
  intros Hin. unfold get. rewrite lookup_map_fields.
  destruct (lookup k o) eqn:E; [reflexivity |].
  now apply lookup_None in E.
Qed.

(** Rebuilding [o] gives [r] when [r] has the keys of [o], in order,
    and holds the rebuilt value under each. *)
Lemma map_fields_eq o : forall r,
  keys r = keys o -> NoDup (keys o) ->
  (forall k, In k (keys o) -> F k (get o k) = get r k) ->
  map_fields F o = r.
Proof.
  induction o as [| [k d] o IH]; intros [| [k' w] r] Hk Hnd HF;
    try discriminate; [reflexivity |].
  simpl in Hk. injection Hk as -> Hk.
  inversion Hnd as [| ? ? Hnin Hnd']; subst.
  simpl. f_equal.
  - f_equal. specialize (HF k (or_introl eq_refl)).
    unfold get in HF. simpl in HF. now rewrite String.eqb_refl in HF.
  - apply IH; [assumption | assumption |].
    intros k0 Hk0. specialize (HF k0 (or_intror Hk0)).
    assert (E : String.eqb k k0 = false).
    { apply String.eqb_neq. intros ->. contradiction. }
    unfold get in *. simpl in HF. now rewrite E in HF.
Qed.

End MapFields.

(** ** The Game variant *)

Lemma NoDup_strings_dec (l : list string) : nodup string_dec l = l -> NoDup l.
Proof. intros H. rewrite <- H. apply NoDup_nodup. Qed.

Lemma NoDup_initialised : NoDup (keys GameModel.initialised).
Proof. apply NoDup_strings_dec. vm_compute. reflexivity. Qed.

Lemma NoDup_initial_userData :
  NoDup (keys (own_props (get GameModel.initialised "userData"))).
Proof. apply NoDup_strings_dec. vm_compute. reflexivity. Qed.

(** The constructor, field by field. *)
Lemma constructor_shape (obj : object) :
  GameModel.constructor obj
  = map_fields (constructed_field obj) GameModel.initialised.
Proof.
  unfold GameModel.constructor, GameModel.constructor_with. cbv zeta.
  rewrite (migrateObject_self_fields _ _ NoDup_initialised).
  destruct (hasOwnProperty obj "userData") eqn:E; simpl negb; cbv iota.
  - unfold constructed_field, migrated_fields, map_fields. rewrite E.
    generalize (Utils.migrate_field obj). intros mf.
    vm_compute. reflexivity.
  - assert (Hud : get (migrated_fields obj GameModel.initialised) "userData"
                  = get GameModel.initialised "userData").
    { unfold migrated_fields. rewrite get_map_fields.
      - now apply migrate_field_absent.
      - vm_compute. tauto. }
    rewrite Hud, (migrateObject_self_fields _ _ NoDup_initial_userData).
    unfold constructed_field, migrated_fields, map_fields. rewrite E.
    generalize (Utils.migrate_field obj). intros mf.
    vm_compute. reflexivity.
Qed.

Lemma keys_constructor (obj : object) :
  keys (GameModel.constructor obj) = keys GameModel.initialised.
Proof. rewrite constructor_shape. apply keys_map_fields. Qed.

Lemma get_constructor (obj : object) (k : string) :
  In k (keys GameModel.initialised) ->
  get (GameModel.constructor obj) k
  = constructed_field obj k (get GameModel.initialised k).
Proof. intros H. rewrite constructor_shape. apply get_map_fields. exact H. Qed.

(** C4.  Whatever the input object holds, under [type] or anywhere else,
    and whatever [migrateObject] does with it, the [type] of the
    constructed Game record is the variant's own media kind, the value of
    [getMediaType()]: the constructor assigns it last. *)
Theorem constructor_type_is_media_kind :
  forall (migrateObject : object -> object -> object) (obj : object),
    let this := GameModel.constructor_with migrateObject obj in
    lookup "type" this
    = Some (Prim (Str (MediaType.to_string (GameModel.getMediaType this)))).
Proof.
  intros migrateObject obj. unfold GameModel.constructor_with. cbv zeta.
  apply lookup_set_eq.
Qed.

Lemma get_constructor_type (obj : object) :
  get (GameModel.constructor obj) "type"
  = Prim (Str (MediaType.to_string MediaType.Game)).
Proof.
  unfold get, GameModel.constructor, GameModel.constructor_with. cbv zeta.
  now rewrite lookup_set_eq.
Qed.

(** Every record the constructor builds is fully populated. *)
Lemma constructor_populated (obj : object) : populated (GameModel.constructor obj).
Proof.
  split; [apply keys_constructor | split].
  - apply get_constructor_type.
  - apply Forall_forall. intros k Hk. rewrite get_constructor by assumption.
    unfold constructed_field.
    destruct (String.eqb k "type") eqn:Et.
    { apply String.eqb_eq in Et. subst k. vm_compute. reflexivity. }
    destruct (String.eqb k "userData" && negb (hasOwnProperty obj "userData")) eqn:Eu.
    { apply andb_true_iff in Eu. destruct Eu as [Eu _].
      apply String.eqb_eq in Eu. subst k. vm_compute. reflexivity. }
    apply migrate_field_compatible.
Qed.

(** C8.  Migration is idempotent: constructing the Game variant from the
    fields of a fully populated Game record [r] gives back [r], field for
    field and in the same order, [userData] included. *)
Theorem constructor_idempotent :
  forall r : object, populated r -> GameModel.constructor r = r.
Proof.
  intros r (Hkeys & Htype & Hcompat).
  rewrite constructor_shape.
  apply map_fields_eq; [assumption | apply NoDup_initialised |].
  intros k Hk. unfold constructed_field.
  assert (Hr : In k (keys r)) by (rewrite Hkeys; exact Hk).
  destruct (String.eqb k "type") eqn:Et.
  { apply String.eqb_eq in Et. subst k. rewrite Htype. reflexivity. }
  assert (Hu : hasOwnProperty r "userData" = true).
  { apply hasOwnProperty_In. rewrite Hkeys. vm_compute. tauto. }
  rewrite Hu, andb_false_r.
  rewrite Forall_forall in Hcompat. specialize (Hcompat k Hk).
  unfold get in Hcompat |- *.
  destruct (lookup k r) as [w |] eqn:El.
  - apply migrate_field_retained; [exact El | exact Hcompat].
  - apply lookup_None in El. exact (False_ind _ (El Hr)).
Qed.

(** [new GameModel(obj)] throws for an input with a key [hasOwnProperty]
    of its own, and else returns what the constructor builds. *)
Lemma new_constructor (obj : object) :
  GameModel.new obj
  = if hasOwnProperty obj "hasOwnProperty" then None
    else Some (GameModel.constructor obj).
Proof.
  unfold GameModel.new, GameModel.new_with, GameModel.constructor,
    GameModel.constructor_with. cbv zeta.
  destruct (hasOwnProperty obj "hasOwnProperty"); reflexivity.
Qed.

Lemma migrated_fields_absent (obj : object) :
  (forall k, In k userData_keys -> hasOwnProperty obj k = false) ->
  migrated_fields obj (own_props (get GameModel.initialised "userData"))
  = own_props (get GameModel.initialised "userData").
Proof.
  intros H. unfold migrated_fields.
  apply map_fields_eq; [reflexivity | apply NoDup_initial_userData |].
  intros k Hk. apply migrate_field_absent. apply H. exact Hk.
Qed.


(** C3 (as amended).  For an input object with no [userData] key:
    [new GameModel(obj)] throws when the input has a key
    [hasOwnProperty] of its own, and otherwise returns a record into
    whose [userData] the input's own top-level fields were migrated: each
    field of [userData] (played, personalRating, personalStatus,
    personalTags) is migrated from the input's field of the same name
    against its declared default.  A field the input does not name keeps
    its default, so an input naming none of them leaves [userData] at its
    defaults. *)
Theorem constructor_userData_from_top_level :
  forall obj : object,
    hasOwnProperty obj "userData" = false ->
    (hasOwnProperty obj "hasOwnProperty" = true -> GameModel.new obj = None) /\
    (hasOwnProperty obj "hasOwnProperty" = false ->
     exists r userData,
       GameModel.new obj = Some r /\
       get r "userData" = Object userData /\
       keys userData = userData_keys /\
       (forall k, In k userData_keys ->
          get userData k
          = Utils.migrate_field obj
              (get (own_props (get GameModel.initialised "userData")) k) k) /\
       ((forall k, In k userData_keys -> hasOwnProperty obj k = false) ->
          Object userData = get GameModel.initialised "userData")).
Proof.
  intros obj E. rewrite new_constructor. split; intros Eh; rewrite Eh;
    [reflexivity |].
  exists (GameModel.constructor obj),
    (migrated_fields obj (own_props (get GameModel.initialised "userData"))).
  split; [reflexivity | split; [| split; [| split]]].
  - rewrite get_constructor by (vm_compute; tauto).
    unfold constructed_field. rewrite E. reflexivity.
  - unfold migrated_fields. apply keys_map_fields.
  - intros k Hk. unfold migrated_fields.
    rewrite get_map_fields; [reflexivity | exact Hk].
  - intros Hnone. rewrite (migrated_fields_absent obj Hnone). reflexivity.
Qed.

(** C3, counterexample.  The legacy input [{ played: true }] has no
    [userData] key, yet the [userData] of the constructed record is not
    the declared default: [played] was migrated into it and is [true]. *)
Lemma constructor_userData_not_default :
  let obj := [("played", Prim (Boolean true))] in
  hasOwnProperty obj "userData" = false /\
  get (GameModel.constructor obj) "userData"
    <> get GameModel.initialised "userData" /\
  get (own_props (get (GameModel.constructor obj) "userData")) "played"
    = Prim (Boolean true).
Proof.
  split; [reflexivity | split].
  - vm_compute. discriminate.
  - vm_compute. reflexivity.
Qed.

(** ** The export payload of a constructed Game record *)




(** ** [getSummary] *)

Lemma string_append_assoc (a b c : string) :
  ((a ++ b) ++ c = a ++ (b ++ c))%string.
Proof. induction a as [| x a IH]; simpl; [reflexivity | now rewrite IH]. Qed.

(** C9 (as amended).  [getSummary()] of a Game record is its
    [englishTitle] followed by its [year] in parentheses; the [title]
    field does not enter the summary. *)
Theorem getSummary_englishTitle_year :
  forall this : object,
    GameModel.getSummary this
    = (to_string (get this "englishTitle") ++ " ("
         ++ to_string (get this "year") ++ ")")%string /\
    (forall title, GameModel.getSummary (set "title" title this)
                   = GameModel.getSummary this).
Proof.
  intros this. split.
  - unfold GameModel.getSummary, str_add_val, val_add_str.
    now rewrite <- !string_append_assoc.
  - intros title. unfold GameModel.getSummary.
    rewrite !get_set_neq by discriminate. reflexivity.
Qed.

(** C9, counterexample.  For the record built from [{ title: 'Elden
    Ring', englishTitle: 'ELDEN RING', year: '2022' }] the summary is
    ['ELDEN RING (2022)'], not the title followed by the year. *)
Lemma getSummary_not_title :
  let this := GameModel.constructor
                [("title", Prim (Str "Elden Ring"));
                 ("englishTitle", Prim (Str "ELDEN RING"));
                 ("year", Prim (Str "2022"))] in
  GameModel.getSummary this = "ELDEN RING (2022)" /\
  GameModel.getSummary this
  <> (to_string (get this "title") ++ " (" ++ to_string (get this "year")
        ++ ")")%string.
Proof. split; [vm_compute; reflexivity | vm_compute; discriminate]. Qed.

(** ** Default property mappings *)

Section DefaultSettings.

Import Settings.

Variable MEDIA_TYPES : list MediaType.t.
Variable createMediaTypeModelFromMediaType :
  object -> MediaType.t -> MediaTypeModel.methods * object.

(** The export payload of the default-constructed instance of a kind. *)
Let metadataObj (mediaType : MediaType.t) : object :=
  let model := createMediaTypeModelFromMediaType [] mediaType in
  MediaTypeModel.toMetaDataObject (fst model) (snd model).

Let default_mapping (key : string) : PropertyMapping :=
  new_PropertyMapping key "" Default (contains lockedPropertyMappings key).

Lemma push_all_properties (ks : list string) : forall m,
  fold_left (fun pmm key => push_property pmm (default_mapping key)) ks m
  = Build_PropertyMappingModel (type m) (properties m ++ map default_mapping ks).
Proof.
  induction ks as [| k ks IH]; intros [t ps]; simpl.
  - now rewrite app_nil_r.
  - rewrite IH. simpl. now rewrite <- app_assoc.
Qed.

Lemma getDefaultSettings_models :
  propertyMappingModels
    (getDefaultSettings MEDIA_TYPES createMediaTypeModelFromMediaType)
  = map (fun mediaType =>
           Build_PropertyMappingModel mediaType
             (map default_mapping (keys (metadataObj mediaType))))
      MEDIA_TYPES.
Proof.
  unfold getDefaultSettings. cbn [propertyMappingModels].
  match goal with |- fold_left ?f _ _ = _ => set (step := f) end.
  assert (G : forall mts acc,
            fold_left step mts acc
            = acc ++ map (fun mediaType =>
                            Build_PropertyMappingModel mediaType
                              (map default_mapping (keys (metadataObj mediaType))))
                       mts).
  { induction mts as [| mt mts IH]; intros acc; cbn [fold_left map].
    - now rewrite app_nil_r.
    - rewrite IH. unfold step at 1. cbv beta zeta.
      rewrite (push_all_properties _ (new_PropertyMappingModel mt)).
      rewrite <- app_assoc. reflexivity. }
  apply (G MEDIA_TYPES []).
Qed.

Lemma locked_iff (k : string) :
  contains lockedPropertyMappings k = true
  <-> k = "type" \/ k = "id" \/ k = "dataSource".
Proof.
  unfold contains, lockedPropertyMappings. simpl.
  rewrite !orb_true_iff, !String.eqb_eq. intuition discriminate.
Qed.

(** C5.  [getDefaultSettings] builds one [PropertyMappingModel] per
    media kind, in the order of [MEDIA_TYPES].  The model of a kind has
    exactly one [PropertyMapping] per key of the [toMetaDataObject()] of
    the kind's default-constructed instance, in enumeration order, each
    with [mapping = Default] and [newKey = ''], and locked if and only
    if its key is [type], [id] or [dataSource]. *)
Theorem getDefaultSettings_property_mappings :
  let models :=
    propertyMappingModels
      (getDefaultSettings MEDIA_TYPES createMediaTypeModelFromMediaType) in
  map type models = MEDIA_TYPES /\
  Forall
    (fun m =>
       map key (properties m) = keys (metadataObj (type m)) /\
       NoDup (map key (properties m)) /\
       Forall
         (fun p =>
            mapping p = Default /\ newKey p = "" /\
            (locked p = true
             <-> key p = "type" \/ key p = "id" \/ key p = "dataSource"))
         (properties m))
    models.
Proof.
  intros models. subst models. rewrite getDefaultSettings_models. split.
  - rewrite map_map. simpl. apply map_id.
  - apply Forall_map, Forall_forall. intros mt _. simpl.
    assert (Hk : map key (map default_mapping (keys (metadataObj mt)))
                 = keys (metadataObj mt)).
    { rewrite map_map. simpl. apply map_id. }
    split; [exact Hk | split].
    + rewrite Hk. unfold metadataObj.
      apply (toMetaDataObject_keys_distinct).
    + apply Forall_map, Forall_forall. intros k _. simpl.
      split; [reflexivity | split; [reflexivity | apply locked_iff]].
Qed.

End DefaultSettings.

(** The default mappings of the Game kind, read off the constructor. *)
Lemma getDefaultSettings_game (mediaDbTag : string) :
  map (fun m => map (fun p => (Settings.key p, Settings.locked p))
                (Settings.properties m))
    (Settings.propertyMappingModels
       (Settings.getDefaultSettings [MediaType.Game]
          (fun obj _ => (GameModel.methods mediaDbTag, GameModel.constructor obj))))
  = [[("type", true); ("subType", false); ("title", false);
      ("englishTitle", false); ("year", false); ("dataSource", true);
      ("url", false); ("id", true); ("apiTags", false); ("genres", false);
      ("personalRating", false); ("personalStatus", false);
      ("personalTags", false); ("tags", false); ("onlineRating", false);
      ("platforms", false); ("developers", false); ("publishers", false);
      ("music", false); ("image", false); ("website", false);
      ("description", false); ("released", false); ("releaseDate", false);
      ("played", false)]].
Proof. vm_compute. reflexivity. Qed.

(** ** Selection of the variant constructor *)

Section GetById.

Import Bangumi.



End GetById.

(** ** The store: what a clone shares with its original *)

Section StoreFacts.

Import Store.

Implicit Types (h : heap) (r : ref) (l n b : nat) (c : cell).

Lemma nth_error_write_neq l l0 c h :
  l <> l0 -> nth_error (write l c h) l0 = nth_error h l0.
Proof.
  revert l l0. induction h as [| c0 h IH]; intros [| l] [| l0] Hne;
    simpl; try reflexivity; try congruence.
  apply IH. congruence.
Qed.

Lemma nth_error_write_eq l c h :
  l < length h -> nth_error (write l c h) l = Some c.
Proof.
  revert l. induction h as [| c0 h IH]; intros [| l] Hl; simpl in *;
    try lia; [reflexivity |].
  apply IH. lia.
Qed.

Lemma extends_refl h : extends h h.
Proof. exists []. now rewrite app_nil_r. Qed.

Lemma extends_trans h1 h2 h3 : extends h1 h2 -> extends h2 h3 -> extends h1 h3.
Proof. intros [a ->] [b ->]. exists (a ++ b). now rewrite app_assoc. Qed.

Lemma extends_length h h' : extends h h' -> length h <= length h'.
Proof. intros [a ->]. rewrite length_app. lia. Qed.

Lemma extends_nth_error h h' l c :
  extends h h' -> nth_error h l = Some c -> nth_error h' l = Some c.
Proof.
  intros [a ->] H. rewrite nth_error_app1; [assumption |].
  apply nth_error_Some. congruence.
Qed.

Lemma ref_in_weaken n n' b b' r :
  n' <= n -> b <= b' -> ref_in n b r -> ref_in n' b' r.
Proof. destruct r as [p | l]; simpl; [trivial | lia]. Qed.

Lemma fresh_from_start h : fresh_from (length h) h.
Proof.
  intros l c Hl Hc. assert (l < length h); [| lia].
  apply nth_error_Some. congruence.
Qed.

(** Freshness composes along successive allocations. *)
Lemma fresh_from_trans h h1 h2 :
  extends h h1 -> extends h1 h2 ->
  fresh_from (length h) h1 -> fresh_from (length h1) h2 ->
  fresh_from (length h) h2.
Proof.
  intros E1 E2 F1 F2 l c Hl Hc.
  pose proof (extends_length _ _ E1) as Hlen.
  destruct (Nat.lt_ge_cases l (length h1)) as [Hlt | Hge].
  - apply (F1 l c Hl). destruct E2 as [a ->].
    now rewrite nth_error_app1 in Hc.
  - eapply Forall_impl; [| apply (F2 l c Hge Hc)].
    intros r. apply ref_in_weaken; lia.
Qed.

Lemma fresh_from_alloc n h c :
  n <= length h -> fresh_from n h ->
  Forall (ref_in n (length h)) (refs_of c) ->
  fresh_from n (h ++ [c]).
Proof.
  intros Hn F Hc l c0 Hl Hc0.
  destruct (Nat.lt_ge_cases l (length h)) as [Hlt | Hge].
  - rewrite nth_error_app1 in Hc0 by assumption. now apply F.
  - rewrite nth_error_app2 in Hc0 by assumption.
    destruct (l - length h) as [| d] eqn:Ed; simpl in Hc0.
    + injection Hc0 as <-. assert (l = length h) by lia. now subst l.
    + destruct d; discriminate Hc0.
Qed.

(** Overwriting a fresh cell with a cell that refers to no more than
    the old one did keeps the heap fresh. *)
Lemma fresh_from_write n h l c c' :
  fresh_from n h -> nth_error h l = Some c ->
  incl (refs_of c') (refs_of c) ->
  fresh_from n (write l c' h).
Proof.
  intros F Hc Hincl l0 c0 Hl0 Hc0.
  destruct (Nat.eq_dec l l0) as [<- | Hne].
  - rewrite nth_error_write_eq in Hc0
      by (apply nth_error_Some; congruence).
    injection Hc0 as <-.
    apply Forall_forall. intros r Hr.
    pose proof (F l c Hl0 Hc) as Hall. rewrite Forall_forall in Hall.
    apply Hall, Hincl, Hr.
  - rewrite nth_error_write_neq in Hc0 by assumption. now apply F.
Qed.

Lemma clone_list_ok clone :
  clone_ok clone ->
  forall rs h h' rs', clone_list clone rs h = Some (h', rs') ->
    extends h h' /\ fresh_from (length h) h' /\
    Forall (ref_in (length h) (length h')) rs' /\
    length rs' = length rs.
Proof.
  intros Hok. induction rs as [| r rs IH]; intros h h' rs' H; simpl in H.
  - injection H as <- <-.
    repeat split; [apply extends_refl | apply fresh_from_start | constructor].
  - destruct (clone h r) as [[h1 r1] |] eqn:E1; [| discriminate].
    destruct (clone_list clone rs h1) as [[h2 rs2] |] eqn:E2; [| discriminate].
    injection H as <- <-.
    destruct (Hok _ _ _ _ E1) as (X1 & F1 & R1).
    destruct (IH _ _ _ E2) as (X2 & F2 & R2 & L2).
    pose proof (extends_length _ _ X1). pose proof (extends_length _ _ X2).
    repeat split.
    + eapply extends_trans; eassumption.
    + eapply fresh_from_trans; eassumption.
    + constructor.
      * eapply ref_in_weaken; [| | exact R1]; lia.
      * eapply Forall_impl; [| exact R2].
        intros r0. apply ref_in_weaken; lia.
    + simpl. now rewrite L2.
Qed.

Lemma structuredClone_ok fuel : clone_ok (structuredClone fuel).
Proof.
  induction fuel as [| fuel IH]; intros h r h' r' H.
  - destruct r as [p | l]; simpl in H; [| discriminate].
    injection H as <- <-.
    repeat split; [apply extends_refl | apply fresh_from_start].
  - destruct r as [p | l]; simpl in H.
    { injection H as <- <-.
      repeat split; [apply extends_refl | apply fresh_from_start]. }
    destruct (nth_error h l) as [[xs | fs] |] eqn:El; [| | discriminate].
    + destruct (clone_list (structuredClone fuel) xs h) as [[h1 xs'] |] eqn:E;
        [| discriminate].
      injection H as <- <-.
      destruct (clone_list_ok _ IH _ _ _ _ E) as (X & F & R & _).
      pose proof (extends_length _ _ X).
      split; [| split].
      * eapply extends_trans; [exact X |]. now exists [CArray xs'].
      * apply fresh_from_alloc; assumption.
      * simpl. rewrite length_app. simpl. lia.
    + destruct (clone_list (structuredClone fuel) (map snd fs) h)
        as [[h1 vs'] |] eqn:E; [| discriminate].
      injection H as <- <-.
      destruct (clone_list_ok _ IH _ _ _ _ E) as (X & F & R & _).
      pose proof (extends_length _ _ X).
      split; [| split].
      * eapply extends_trans; [exact X |].
        now exists [CObject (combine (map fst fs) vs')].
      * apply fresh_from_alloc; try assumption.
        simpl. apply Forall_forall. intros r Hr.
        rewrite Forall_forall in R. apply R.
        apply in_map_iff in Hr. destruct Hr as [[k r0] [<- Hin]].
        simpl. eapply in_combine_r. exact Hin.
      * simpl. rewrite length_app. simpl. lia.
Qed.

(** Everything reachable from a fresh reference is fresh, and older
    than the bound of the reference. *)
Lemma reachable_bounds n h :
  fresh_from n h ->
  forall r l, reachable h r l -> forall b, ref_in n b r -> n <= l < b.
Proof.
  intros F r l H.
  induction H as [l | l0 c r l' Hc Hr Hreach IH]; intros b Hb.
  - exact Hb.
  - simpl in Hb. pose proof (F l0 c (proj1 Hb) Hc) as Hall.
    rewrite Forall_forall in Hall.
    specialize (IH l0 (Hall r Hr)). lia.
Qed.

End StoreFacts.

Section ReprFacts.

Import Store.

Implicit Types (h : heap) (r : ref) (v : value).

Lemma all2_impl_In {A B} (P Q : A -> B -> Prop) (xs : list A) :
  forall ys,
    (forall x y, In x xs -> In y ys -> P x y -> Q x y) ->
    all2 P xs ys -> all2 Q xs ys.
Proof.
  induction xs as [| x xs IH]; intros [| y ys] HPQ H; simpl in *; try tauto.
  destruct H as [H1 H2]. split.
  - apply HPQ; auto.
  - apply IH; [| assumption]. intros x0 y0 Hx Hy. apply HPQ; auto.
Qed.

Lemma all2_map_snd {K} (P : value -> ref -> Prop)
    (fs : list (K * value)) : forall (rs : list (K * ref)),
  all2 (fun kv kr => fst kv = fst kr /\ P (snd kv) (snd kr)) fs rs ->
  all2 P (map snd fs) (map snd rs) /\ map fst fs = map fst rs.
Proof.
  induction fs as [| [k x] fs IH]; intros [| [k' r] rs] H; simpl in *;
    try tauto.
  destruct H as [[-> Hx] H]. destruct (IH _ H) as [H1 H2].
  repeat split; [assumption | assumption | now rewrite H2].
Qed.

Lemma all2_combine {K} (P : value -> ref -> Prop)
    (fs : list (K * value)) : forall (vs : list ref),
  all2 P (map snd fs) vs ->
  all2 (fun kv kr => fst kv = fst kr /\ P (snd kv) (snd kr)) fs
    (combine (map fst fs) vs).
Proof.
  induction fs as [| [k x] fs IH]; intros [| r vs] H; simpl in *; try tauto.
  destruct H as [Hx H]. repeat split; [assumption | now apply IH].
Qed.

Lemma all2_filter {X Y} (P : string * X -> string * Y -> Prop)
    (keep : string -> bool) (fs : list (string * X)) :
  forall (rs : list (string * Y)),
    all2 (fun kv kr => fst kv = fst kr /\ P kv kr) fs rs ->
    all2 (fun kv kr => fst kv = fst kr /\ P kv kr)
      (filter (fun kv => keep (fst kv)) fs)
      (filter (fun kr => keep (fst kr)) rs).
Proof.
  induction fs as [| [k x] fs IH]; intros [| [k' r] rs] H; simpl in *;
    try tauto.
  destruct H as [[Hk Hx] H]. simpl in Hk. subst k'.
  destruct (keep k); simpl; auto.
Qed.

(** A value read through a reference depends only on the cells the
    reference leads to. *)
Lemma repr_frame h h2 v : forall r,
  repr h v r ->
  (forall l c, reachable h r l -> nth_error h l = Some c ->
               nth_error h2 l = Some c) ->
  repr h2 v r.
Proof.
  induction v as [p | xs IH | fs IH] using value_ind; intros r H Hsame.
  - exact H.
  - destruct H as (l & rs & -> & Hl & Hall). simpl.
    exists l, rs. split; [reflexivity | split].
    + apply Hsame; [constructor | assumption].
    + rewrite Forall_forall in IH.
      eapply all2_impl_In; [| exact Hall].
      intros x y Hx Hy Hxy. apply IH; [assumption | assumption |].
      intros l' c' Hreach. apply Hsame.
      eapply reach_step; [exact Hl | exact Hy | exact Hreach].
  - destruct H as (l & rs & -> & Hl & Hall). simpl.
    exists l, rs. split; [reflexivity | split].
    + apply Hsame; [constructor | assumption].
    + rewrite Forall_forall in IH.
      eapply all2_impl_In; [| exact Hall].
      intros kv kr Hkv Hkr [Hk Hxy]. split; [assumption |].
      apply IH; [assumption | assumption |].
      intros l' c' Hreach. apply Hsame.
      eapply reach_step; [exact Hl | | exact Hreach].
      simpl. apply in_map. exact Hkr.
Qed.

Lemma repr_preserved h h2 v r :
  repr h v r ->
  (forall l c, nth_error h l = Some c -> nth_error h2 l = Some c) ->
  repr h2 v r.
Proof. intros H Hsame. eapply repr_frame; [exact H | auto]. Qed.

Lemma repr_extends h h' v r : repr h v r -> extends h h' -> repr h' v r.
Proof.
  intros H X. eapply repr_preserved; [exact H |].
  intros l c. now apply extends_nth_error.
Qed.

Lemma depth_members {A} (d : A -> nat) (xs : list A) (f : nat) :
  fold_right (fun x m => Nat.max (d x) m) 0 xs <= f ->
  Forall (fun x => d x <= f) xs.
Proof.
  induction xs as [| x xs IH]; simpl; intros H; constructor.
  - lia.
  - apply IH. lia.
Qed.

Lemma clone_list_repr (xs : list value) (f : nat) :
  Forall clones xs -> Forall (fun x => depth x <= f) xs ->
  forall rs h, all2 (repr h) xs rs ->
    exists h' rs', clone_list (structuredClone f) rs h = Some (h', rs') /\
                   all2 (repr h') xs rs'.
Proof.
  induction xs as [| x xs IH]; intros Hc Hd [| r rs] h Hall; simpl in Hall;
    try tauto.
  - exists h, []. now split.
  - inversion Hc as [| ? ? Hcx Hcxs]; subst.
    inversion Hd as [| ? ? Hdx Hdxs]; subst.
    destruct Hall as [Hx Hall].
    destruct (Hcx h r f Hx Hdx) as (h1 & r1 & E1 & R1).
    destruct (structuredClone_ok f _ _ _ _ E1) as (X1 & _ & _).
    destruct (IH Hcxs Hdxs rs h1) as (h2 & rs2 & E2 & R2).
    { eapply all2_impl_In; [| exact Hall].
      intros x0 y0 _ _ H0. eapply repr_extends; eassumption. }
    destruct (clone_list_ok _ (structuredClone_ok f) _ _ _ _ E2) as (X2 & _).
    exists h2, (r1 :: rs2). simpl. rewrite E1, E2. split; [reflexivity |].
    split; [| assumption]. eapply repr_extends; eassumption.
Qed.

Lemma structuredClone_repr v : clones v.
Proof.
  induction v as [p | xs IH | fs IH] using value_ind; intros h r fuel H Hd.
  - simpl in H. subst r. exists h, (RPrim p). now destruct fuel.
  - destruct H as (l & rs & -> & Hl & Hall).
    destruct fuel as [| f]; simpl in Hd; [lia |].
    apply le_S_n, depth_members in Hd.
    destruct (clone_list_repr xs f IH Hd rs h Hall) as (h1 & rs1 & E & R).
    destruct (clone_list_ok _ (structuredClone_ok f) _ _ _ _ E) as (X & _).
    simpl. rewrite Hl, E. eexists _, _. split; [reflexivity |].
    exists (length h1), rs1. split; [reflexivity | split].
    + rewrite nth_error_app2, Nat.sub_diag by lia. reflexivity.
    + eapply all2_impl_In; [| exact R].
      intros x0 y0 _ _ H0. eapply repr_extends; [exact H0 |].
      now exists [CArray rs1].
  - destruct H as (l & rs & -> & Hl & Hall).
    destruct fuel as [| f]; simpl in Hd; [lia |].
    apply le_S_n, depth_members in Hd.
    destruct (all2_map_snd _ _ _ Hall) as [Hvals Hkeys].
    assert (IH' : Forall clones (map snd fs)) by now apply Forall_map.
    assert (Hd' : Forall (fun x => depth x <= f) (map snd fs))
      by now apply Forall_map.
    destruct (clone_list_repr _ f IH' Hd' _ h Hvals) as (h1 & vs1 & E & R).
    destruct (clone_list_ok _ (structuredClone_ok f) _ _ _ _ E) as (X & _).
    simpl. rewrite Hl, E. eexists _, _. split; [reflexivity |].
    exists (length h1), (combine (map fst rs) vs1).
    split; [reflexivity | split].
    + rewrite nth_error_app2, Nat.sub_diag by lia. reflexivity.
    + rewrite <- Hkeys. apply all2_combine.
      eapply all2_impl_In; [| exact R].
      intros x0 y0 _ _ H0. eapply repr_extends; [exact H0 |].
      eexists. reflexivity.
Qed.

End ReprFacts.

Section DeepCopy.

Import Store.

(** C6.  Let the record with fields [fields] be held in the store at
    address [this].  [getWithOutUserData()] returns: it allocates an
    object [copy] that has no [userData] key and holds the other fields
    of the record with their values, and leaves the record as it was.
    Every cell [copy] leads to, the cells of nested sequences included,
    was allocated by the call, so none is a cell of the record; and
    whatever is written into any of them, the record still holds
    [fields]. *)
Theorem getWithOutUserData_independent_copy :
  forall (h : heap) (this : loc) (fields : object),
    repr h (Object fields) (RLoc this) ->
    exists h' copy,
      Store.getWithOutUserData (depth (Object fields)) h this = Some (h', copy) /\
      (exists fs, nth_error h' copy = Some (CObject fs) /\
                  ~ In "userData" (map fst fs)) /\
      repr h' (Object (MediaTypeModel.getWithOutUserData fields)) (RLoc copy) /\
      repr h' (Object fields) (RLoc this) /\
      (forall l, reachable h' (RLoc copy) l -> length h <= l) /\
      (forall l c, reachable h' (RLoc copy) l ->
         repr (write l c h') (Object fields) (RLoc this)).
Proof.
  intros h this fields Hthis.
  destruct (structuredClone_repr (Object fields) h (RLoc this) _ Hthis (le_n _))
    as (h1 & r1 & E & R1).
  destruct (structuredClone_ok _ _ _ _ _ E) as (X & F & Rin).
  destruct R1 as (copy & rs & -> & Hcopy & Hall).
  simpl in Rin.
  set (keep := fun k : string => negb (String.eqb k "userData")).
  set (fs' := filter (fun kr : string * ref => keep (fst kr)) rs).
  assert (Hlt : copy < length h1) by (apply nth_error_Some; congruence).
  assert (Hold : forall l c0, nth_error h l = Some c0 ->
            nth_error (write copy (CObject fs') h1) l = Some c0).
  { intros l c0 Hc0.
    assert (l < length h) by (apply nth_error_Some; congruence).
    rewrite nth_error_write_neq by lia.
    eapply extends_nth_error; eassumption. }
  assert (F' : fresh_from (length h) (write copy (CObject fs') h1)).
  { eapply fresh_from_write; [exact F | exact Hcopy |].
    simpl. intros r Hr. apply in_map_iff in Hr.
    destruct Hr as [kr [<- Hin]]. apply in_map.
    apply filter_In in Hin. tauto. }
  assert (Hfresh : forall l, reachable (write copy (CObject fs') h1) (RLoc copy) l ->
            length h <= l).
  { intros l Hreach.
    pose proof (reachable_bounds _ _ F' _ _ Hreach (length h1) Rin). lia. }
  exists (write copy (CObject fs') h1), copy.
  split; [| split; [| split; [| split; [| split]]]].
  - unfold Store.getWithOutUserData. rewrite E, Hcopy. reflexivity.
  - exists fs'. split; [now apply nth_error_write_eq |].
    rewrite in_map_iff. intros [[k r] [Hk Hin]]. simpl in Hk. subst k.
    apply filter_In in Hin. destruct Hin as [_ Hin]. discriminate Hin.
  - rewrite getWithOutUserData_delete.
    exists copy, fs'. split; [reflexivity | split].
    + now apply nth_error_write_eq.
    + apply (all2_filter
               (fun kv kr => repr (write copy (CObject fs') h1) (snd kv) (snd kr))
               keep).
      eapply all2_impl_In; [| exact Hall].
      intros kv kr _ Hkr [Hk Hx]. split; [assumption |].
      eapply repr_frame; [exact Hx |].
      intros l c0 Hreach Hc0. rewrite nth_error_write_neq; [assumption |].
      pose proof (F copy _ (proj1 Rin) Hcopy) as Hrefs.
      simpl in Hrefs. rewrite Forall_forall in Hrefs.
      assert (Hkr' : ref_in (length h) copy (snd kr))
        by (apply Hrefs, in_map, Hkr).
      pose proof (reachable_bounds _ _ F _ _ Hreach _ Hkr'). lia.
  - eapply repr_preserved; [exact Hthis | exact Hold].
  - exact Hfresh.
  - intros l c Hreach. apply Hfresh in Hreach.
    eapply repr_preserved; [exact Hthis |].
    intros l0 c0 Hc0.
    assert (l0 < length h) by (apply nth_error_Some; congruence).
    rewrite nth_error_write_neq by lia. now apply Hold.
Qed.

End DeepCopy.

(** ** The statements at concrete records *)

(** A Game record as the constructor builds it from a vendor payload. *)
Definition hades : object :=
  GameModel.constructor
    [ ("title", Prim (Str "Hades"));
      ("englishTitle", Prim (Str "Hades"));
      ("year", Prim (Str "2020"));
      ("genres", Array [Prim (Str "roguelike")]);
      ("played", Prim (Boolean true)) ].

Definition hades_userData : object :=
  [ ("played", Prim (Boolean true));
    ("personalRating", Prim (Number 0));
    ("personalStatus", Prim Undefined);
    ("personalTags", Prim Undefined) ].

Lemma toMetaDataObject_is_merge_witness :
  lookup "played" (MediaTypeModel.toMetaDataObject (GameModel.methods "mediaDB") hades)
  = lookup "played"
      (merge (merge (non_userData hades) hades_userData)
         [("tags", Prim (Str "mediaDB/game"))]).
Proof.
  apply (proj1 (proj2 (toMetaDataObject_is_merge (GameModel.methods "mediaDB")
                         hades hades_userData
                         (NoDup_strings_dec _ eq_refl) eq_refl
                         (NoDup_strings_dec _ eq_refl)))).
Defined.


Lemma constructor_userData_from_top_level_witness :
  let obj := [("played", Prim (Boolean true)); ("personalRating", Prim (Str "9"))] in
  exists r userData,
    GameModel.new obj = Some r /\
    get r "userData" = Object userData /\
    keys userData = userData_keys /\
    (forall k, In k userData_keys ->
       get userData k
       = Utils.migrate_field obj
           (get (own_props (get GameModel.initialised "userData")) k) k) /\
    ((forall k, In k userData_keys -> hasOwnProperty obj k = false) ->
       Object userData = get GameModel.initialised "userData").
Proof.
  intros obj.
  apply (proj2 (constructor_userData_from_top_level obj eq_refl)).
  reflexivity.
Defined.

Lemma constructor_idempotent_witness : GameModel.constructor hades = hades.
Proof.
  apply (constructor_idempotent hades).
  split; [vm_compute; reflexivity | split; [vm_compute; reflexivity |]].
  vm_compute. repeat constructor.
Defined.

(** The record [{ title: 'Hades', genres: ['roguelike'], userData:
    { played: true } }] in a store: the sequence at address 0, [userData]
    at 1, the record at 2. *)
Definition hades_heap : Store.heap :=
  [ Store.CArray [Store.RPrim (Str "roguelike")];
    Store.CObject [("played", Store.RPrim (Boolean true))];
    Store.CObject [ ("title", Store.RPrim (Str "Hades"));
                    ("genres", Store.RLoc 0);
                    ("userData", Store.RLoc 1) ] ].

Definition hades_fields : object :=
  [ ("title", Prim (Str "Hades"));
    ("genres", Array [Prim (Str "roguelike")]);
    ("userData", Object [("played", Prim (Boolean true))]) ].

(** The call on that store: the copy is the cell at 5, its sequence the
    new cell at 3; the cells 0 to 2 of the record are as before. *)
Lemma getWithOutUserData_hades :
  Store.getWithOutUserData 2 hades_heap 2
  = Some (hades_heap ++
            [ Store.CArray [Store.RPrim (Str "roguelike")];
              Store.CObject [("played", Store.RPrim (Boolean true))];
              Store.CObject [ ("title", Store.RPrim (Str "Hades"));
                              ("genres", Store.RLoc 3) ] ],
          5).
Proof. vm_compute. reflexivity. Qed.

Lemma getWithOutUserData_independent_copy_witness :
  exists h' copy,
    Store.getWithOutUserData (Store.depth (Object hades_fields)) hades_heap 2
    = Some (h', copy) /\
    (exists fs, nth_error h' copy = Some (Store.CObject fs) /\
                ~ In "userData" (map fst fs)) /\
    Store.repr h' (Object (MediaTypeModel.getWithOutUserData hades_fields))
      (Store.RLoc copy) /\
    Store.repr h' (Object hades_fields) (Store.RLoc 2) /\
    (forall l, Store.reachable h' (Store.RLoc copy) l -> length hades_heap <= l) /\
    (forall l c, Store.reachable h' (Store.RLoc copy) l ->
       Store.repr (Store.write l c h') (Object hades_fields) (Store.RLoc 2)).
Proof.
  apply (getWithOutUserData_independent_copy hades_heap 2 hades_fields).
  simpl. eexists _, _. split; [reflexivity | split; [reflexivity |]].
  simpl. repeat split.
  - eexists _, _. split; [reflexivity | split; [reflexivity |]].
    simpl. repeat split.
  - eexists _, _. split; [reflexivity | split; [reflexivity |]].
    simpl. repeat split.
Defined.


(* ================================================================== *)
(** * Further properties of the code *)

(** ** The export payload, key by key *)

Lemma lookup_merge (a b : object) (k : string) :
  lookup k (merge a b)
  = match lookup k b with
    | Some v => Some v
    | None => lookup k a
    end.
Proof.
  unfold merge. rewrite lookup_app.
  assert (Ha : lookup k (map (fun kv => (fst kv, match lookup (fst kv) b with
                                                 | Some w => w
                                                 | None => snd kv
                                                 end)) a)
               = match lookup k a with
                 | Some v => Some (match lookup k b with Some w => w | None => v end)
                 | None => None
                 end).
  { induction a as [| [k0 v0] a IH]; simpl; [reflexivity |].
    destruct (String.eqb k0 k) eqn:E; [| exact IH].
    apply String.eqb_eq in E. subst k0. reflexivity. }
  rewrite Ha. clear Ha. destruct (lookup k a) as [va |] eqn:Ea.
  - destruct (lookup k b); reflexivity.
  - apply lookup_None, hasOwnProperty_false in Ea.
    induction b as [| [k0 v0] b IH]; simpl; [reflexivity |].
    destruct (String.eqb k0 k) eqn:E.
    + apply String.eqb_eq in E. subst k0. rewrite Ea. simpl.
      now rewrite String.eqb_refl.
    + destruct (negb (hasOwnProperty a k0)); simpl; [rewrite E |]; exact IH.
Qed.

Lemma keys_merge (a b : object) :
  keys (merge a b)
  = keys a ++ filter (fun k => negb (hasOwnProperty a k)) (keys b).
Proof.
  unfold merge, keys. rewrite map_app, map_map. f_equal.
  induction b as [| [k v] b IH]; simpl; [reflexivity |].
  destruct (negb (hasOwnProperty a k)); simpl; now rewrite IH.
Qed.

Lemma toMetaDataObject_merged (M : MediaTypeModel.methods) (this userData : object) :
  NoDup (keys this) ->
  get this "userData" = Object userData ->
  NoDup (keys userData) ->
  MediaTypeModel.toMetaDataObject M this
  = merge (merge (delete "userData" this) userData)
      [("tags", Prim (Str (join "/" (MediaTypeModel.getTags M this))))].
Proof.
  intros Hnd Hud Hndu. unfold MediaTypeModel.toMetaDataObject.
  rewrite Hud, getWithOutUserData_delete. simpl own_props.
  rewrite (spread_fresh _ []) by (simpl app; apply NoDup_keys_delete, Hnd).
  simpl app. rewrite spread_merge by assumption.
  change (set "tags" ?v ?o) with (spread [("tags", v)] o).
  apply spread_merge. repeat constructor. simpl. tauto.
Qed.

(** X1.  In the export payload a field of [userData] takes precedence
    over a field of the record with the same name; [tags] is the
    computed string; every other key is exported with the record's own
    value; and the [userData] object itself is exported only if
    [userData] has a field of that name. *)
Theorem toMetaDataObject_lookup :
  forall (M : MediaTypeModel.methods) (this userData : object) (k : string),
    NoDup (keys this) ->
    get this "userData" = Object userData ->
    NoDup (keys userData) ->
    lookup k (MediaTypeModel.toMetaDataObject M this)
    = if String.eqb k "tags"
      then Some (Prim (Str (join "/" (MediaTypeModel.getTags M this))))
      else match lookup k userData with
           | Some v => Some v
           | None => if String.eqb k "userData" then None else lookup k this
           end.
Proof.
  intros M this ud k Hnd Hud Hndu.
  rewrite (toMetaDataObject_merged M this ud Hnd Hud Hndu).
  rewrite !lookup_merge.
  change (lookup k [("tags", ?v)])
    with (if String.eqb "tags" k then Some v else None).
  rewrite (String.eqb_sym "tags" k).
  destruct (String.eqb k "tags"); [reflexivity |].
  destruct (lookup k ud); [reflexivity |].
  destruct (String.eqb k "userData") eqn:E.
  - apply String.eqb_eq in E. subst k.
    apply lookup_None, hasOwnProperty_false, delete_no_key.
  - apply String.eqb_neq in E. apply lookup_delete_neq. congruence.
Qed.

Lemma toMetaDataObject_lookup_witness :
  lookup "personalRating"
    (MediaTypeModel.toMetaDataObject (GameModel.methods "mediaDB") hades)
  = Some (Prim (Number 0)).
Proof.
  rewrite (toMetaDataObject_lookup (GameModel.methods "mediaDB") hades
             hades_userData "personalRating").
  - reflexivity.
  - apply NoDup_strings_dec. vm_compute. reflexivity.
  - vm_compute. reflexivity.
  - apply NoDup_strings_dec. vm_compute. reflexivity.
Defined.

(** X2.  The keys of the export payload, in enumeration order, for a
    record none of whose keys, nor any key of its [userData], is written
    as a number: the record's own keys without [userData], then the keys
    of [userData] the record does not have itself, then [tags] if
    neither has it. *)
Theorem toMetaDataObject_keys :
  forall (M : MediaTypeModel.methods) (this userData : object),
    NoDup (keys this) ->
    get this "userData" = Object userData ->
    NoDup (keys userData) ->
    forallb (fun k => negb (integer_like k)) (keys this ++ keys userData) = true ->
    keys (MediaTypeModel.toMetaDataObject M this)
    = keys (delete "userData" this)
      ++ filter (fun k => negb (hasOwnProperty (delete "userData" this) k))
           (keys userData)
      ++ (if hasOwnProperty (delete "userData" this) "tags"
             || hasOwnProperty userData "tags"
          then [] else ["tags"]).
Proof.
  intros M this ud Hnd Hud Hndu _.
  rewrite (toMetaDataObject_merged M this ud Hnd Hud Hndu).
  rewrite !keys_merge, <- app_assoc. do 2 f_equal. simpl.
  set (a := delete "userData" this).
  assert (H : hasOwnProperty (merge a ud) "tags"
              = hasOwnProperty a "tags" || hasOwnProperty ud "tags").
  { destruct (hasOwnProperty a "tags") eqn:Ea; simpl.
    - apply hasOwnProperty_In. rewrite keys_merge. apply in_or_app. left.
      now apply hasOwnProperty_In.
    - destruct (hasOwnProperty ud "tags") eqn:Eu.
      + apply hasOwnProperty_In. rewrite keys_merge. apply in_or_app. right.
        apply filter_In. split; [now apply hasOwnProperty_In | now rewrite Ea].
      + apply hasOwnProperty_false. rewrite keys_merge. intros Hin.
        apply in_app_or in Hin. destruct Hin as [Hin | Hin].
        * apply hasOwnProperty_In in Hin. congruence.
        * apply filter_In in Hin. destruct Hin as [Hin _].
          apply hasOwnProperty_In in Hin. congruence. }
  rewrite H. destruct (hasOwnProperty a "tags" || hasOwnProperty ud "tags");
    reflexivity.
Qed.

Lemma toMetaDataObject_keys_witness :
  keys (MediaTypeModel.toMetaDataObject (GameModel.methods "mediaDB") hades)
  = keys (delete "userData" hades)
    ++ filter (fun k => negb (hasOwnProperty (delete "userData" hades) k))
         (keys hades_userData)
    ++ (if hasOwnProperty (delete "userData" hades) "tags"
           || hasOwnProperty hades_userData "tags"
        then [] else ["tags"]).
Proof.
  apply (toMetaDataObject_keys (GameModel.methods "mediaDB") hades hades_userData).
  - apply NoDup_strings_dec. vm_compute. reflexivity.
  - vm_compute. reflexivity.
  - apply NoDup_strings_dec. vm_compute. reflexivity.
  - vm_compute. reflexivity.
Defined.

(** ** The constructor of [GameModel], field by field *)

(** Whatever the input holds, the constructed record has exactly
    the declared fields, in declaration order: fields of the input the
    class does not declare are dropped, fields it lacks are there. *)
Theorem constructor_keys :
  forall obj : object,
    keys (GameModel.constructor obj)
    = [ "type"; "subType"; "title"; "englishTitle"; "year"; "dataSource";
        "url"; "id"; "apiTags"; "genres"; "userData"; "personalRating";
        "personalStatus"; "personalTags"; "tags"; "onlineRating";
        "platforms"; "developers"; "publishers"; "music"; "image";
        "website"; "description"; "released"; "releaseDate" ] /\
    forall k, hasOwnProperty (GameModel.constructor obj) k = true ->
              In k (keys GameModel.initialised).
Proof.
  intros obj. split.
  - rewrite constructor_shape, keys_map_fields. vm_compute. reflexivity.
  - intros k Hk. apply hasOwnProperty_In in Hk.
    rewrite constructor_shape, keys_map_fields in Hk. exact Hk.
Qed.

(** Every declared field other than [type] and [userData] is taken
    from the input when the input has it with a value of the field's
    type, and is the declared default otherwise. *)
Theorem constructor_field :
  forall (obj : object) (k : string),
    In k (keys GameModel.initialised) -> k <> "type" -> k <> "userData" ->
    get (GameModel.constructor obj) k
    = match lookup k obj with
      | Some v =>
          if Utils.type_compatible v (get GameModel.initialised k)
          then v else get GameModel.initialised k
      | None => get GameModel.initialised k
      end.
Proof.
  intros obj k Hin Ht Hu. rewrite get_constructor by exact Hin.
  unfold constructed_field.
  apply String.eqb_neq in Ht. apply String.eqb_neq in Hu.
  rewrite Ht, Hu. reflexivity.
Qed.

Lemma constructor_field_witness :
  get (GameModel.constructor [("title", Prim (Number 7)); ("year", Prim (Str "2020"))])
    "year"
  = Prim (Str "2020").
Proof.
  rewrite (constructor_field _ "year").
  - vm_compute. reflexivity.
  - vm_compute. tauto.
  - discriminate.
  - discriminate.
Defined.

(** X3.  For an input whose [userData] is an object: [new
    GameModel(obj)] throws when the input has a key [hasOwnProperty] of
    its own, and otherwise that object becomes the [userData] of the
    record as it is: its fields are not migrated one by one, so a field
    it lacks (say [played]) is missing from the record's [userData]
    too. *)
Theorem constructor_userData_given :
  forall (obj userData : object),
    lookup "userData" obj = Some (Object userData) ->
    (hasOwnProperty obj "hasOwnProperty" = true -> GameModel.new obj = None) /\
    (hasOwnProperty obj "hasOwnProperty" = false ->
     exists r, GameModel.new obj = Some r /\ get r "userData" = Object userData).
Proof.
  intros obj ud Hv. rewrite new_constructor.
  split; intros Eh; rewrite Eh; [reflexivity |].
  exists (GameModel.constructor obj). split; [reflexivity |].
  assert (Hh : hasOwnProperty obj "userData" = true).
  { destruct (hasOwnProperty obj "userData") eqn:E; [reflexivity |].
    apply hasOwnProperty_false, lookup_None in E. congruence. }
  rewrite get_constructor by (vm_compute; tauto).
  unfold constructed_field. rewrite Hh.
  change (String.eqb "userData" "type") with false.
  change (String.eqb "userData" "userData" && negb true) with false.
  cbv iota. unfold Utils.migrate_field. rewrite Hv. reflexivity.
Qed.

Lemma constructor_userData_given_witness :
  exists r,
    GameModel.new [("userData", Object [("personalRating", Prim (Number 9))])]
    = Some r /\
    get r "userData" = Object [("personalRating", Prim (Number 9))].
Proof.
  apply (proj2 (constructor_userData_given
                  [("userData", Object [("personalRating", Prim (Number 9))])]
                  [("personalRating", Prim (Number 9))] eq_refl)).
  reflexivity.
Defined.

(** ** The later revision of [GameModel] *)

Lemma NoDup_initialised2 : NoDup (keys GameModel2.initialised).
Proof. apply NoDup_strings_dec. vm_compute. reflexivity. Qed.

Lemma constructor2_shape (obj : object) :
  GameModel2.constructor obj
  = map_fields (constructed_field obj) GameModel2.initialised.
Proof.
  unfold GameModel2.constructor, GameModel2.constructor_with. cbv zeta.
  rewrite (migrateObject_self_fields _ _ NoDup_initialised2).
  destruct (hasOwnProperty obj "userData") eqn:E; simpl negb; cbv iota.
  - unfold constructed_field, migrated_fields, map_fields. rewrite E.
    generalize (Utils.migrate_field obj). intros mf.
    vm_compute. reflexivity.
  - assert (Hud : get (migrated_fields obj GameModel2.initialised) "userData"
                  = get GameModel.initialised "userData").
    { unfold migrated_fields. rewrite get_map_fields.
      - now apply migrate_field_absent.
      - vm_compute. tauto. }
    rewrite Hud, (migrateObject_self_fields _ _ NoDup_initial_userData).
    unfold constructed_field, migrated_fields, map_fields. rewrite E.
    generalize (Utils.migrate_field obj). intros mf.
    vm_compute. reflexivity.
Qed.

(** The fields the two revisions share have the same defaults. *)
Lemma shared_fields (k : string) :
  In k (keys GameModel.initialised) -> k <> "music" ->
  In k (keys GameModel2.initialised) /\
  get GameModel2.initialised k = get GameModel.initialised k.
Proof.
  intros Hin Hne. revert Hin. vm_compute. intros Hin.
  repeat (destruct Hin as [Hin | Hin];
          [first [ exfalso; apply Hne; symmetry; exact Hin
                 | subst k; split; [tauto | reflexivity] ] |]).
  destruct Hin.
Qed.

(** The fields only the later revision has. *)
Lemma new_fields (k : string) :
  In k [ "composer"; "director"; "producer"; "supervisor"; "designer";
         "programmer"; "soundDirector"; "writer"; "cast"; "artist" ] ->
  lookup k GameModel2.initialised = Some (Array []) /\
  k <> "type" /\ k <> "userData" /\
  ~ In k (keys GameModel.initialised).
Proof.
  intros Hin.
  repeat (destruct Hin as [Hin | Hin];
          [subst k; split; [vm_compute; reflexivity |];
           split; [discriminate |]; split; [discriminate |];
           vm_compute; intros Hin';
           repeat (destruct Hin' as [Hin' | Hin']; [discriminate Hin' |]);
           destruct Hin' |]).
  destruct Hin.
Qed.

(** A record built by the first revision has no key [hasOwnProperty]:
    the constructor of the later revision does not throw on it. *)
Lemma new2_first_revision (obj : object) :
  GameModel2.new (GameModel.constructor obj)
  = Some (GameModel2.constructor (GameModel.constructor obj)).
Proof.
  unfold GameModel2.new, GameModel2.new_with, GameModel2.constructor,
    GameModel2.constructor_with. cbv zeta.
  assert (H : hasOwnProperty (GameModel.constructor obj) "hasOwnProperty" = false).
  { apply hasOwnProperty_false. rewrite keys_constructor. vm_compute.
    intros H. repeat (destruct H as [H | H]; [discriminate H |]). exact H. }
  rewrite H. reflexivity.
Qed.

(** X4.  A record built by the first revision of the class, given to the
    constructor of the later revision, comes out with the later
    revision's fields: every field the revisions share keeps the
    record's value ([userData] included), [music] is dropped, and each
    new field holds its default, the empty sequence. *)
Theorem constructor2_migrates_first_revision :
  forall obj : object,
    let r := GameModel.constructor obj in
    let r2 := GameModel2.constructor r in
    keys r2 = keys GameModel2.initialised /\
    (forall k, In k (keys GameModel.initialised) -> k <> "music" ->
       get r2 k = get r k) /\
    hasOwnProperty r2 "music" = false /\
    (forall k, In k [ "composer"; "director"; "producer"; "supervisor";
                      "designer"; "programmer"; "soundDirector"; "writer";
                      "cast"; "artist" ] ->
       lookup k r2 = Some (Array [])).
Proof.
  intros obj r r2. subst r2.
  destruct (constructor_populated obj) as (Hkeys & Htype & Hcompat).
  fold r in Hkeys, Htype, Hcompat.
  assert (Hu : hasOwnProperty r "userData" = true).
  { apply hasOwnProperty_In. rewrite Hkeys. vm_compute. tauto. }
  assert (Hk2 : keys (GameModel2.constructor r) = keys GameModel2.initialised).
  { rewrite constructor2_shape. apply keys_map_fields. }
  split; [exact Hk2 | split; [| split]].
  - intros k Hin Hne. destruct (shared_fields k Hin Hne) as [Hin2 Hd].
    rewrite constructor2_shape, get_map_fields by exact Hin2.
    unfold constructed_field. rewrite Hd, Hu, andb_false_r.
    destruct (String.eqb k "type") eqn:Et.
    { apply String.eqb_eq in Et. subst k. symmetry. exact Htype. }
    rewrite Forall_forall in Hcompat. specialize (Hcompat k Hin).
    assert (Hr : In k (keys r)) by (rewrite Hkeys; exact Hin).
    unfold get in Hcompat |- *.
    destruct (lookup k r) as [w |] eqn:El.
    + apply migrate_field_retained; [exact El | exact Hcompat].
    + apply lookup_None in El. exact (False_ind _ (El Hr)).
  - apply hasOwnProperty_false. rewrite Hk2. vm_compute.
    intros Hin.
    repeat (destruct Hin as [Hin | Hin]; [discriminate Hin |]).
    destruct Hin.
  - intros k Hin. destruct (new_fields k Hin) as (Hl & Ht & Hud & Hnew).
    assert (Hno : hasOwnProperty r k = false).
    { apply hasOwnProperty_false. rewrite Hkeys. exact Hnew. }
    rewrite constructor2_shape, lookup_map_fields, Hl. simpl option_map.
    unfold constructed_field.
    apply String.eqb_neq in Ht. apply String.eqb_neq in Hud.
    rewrite Ht, Hud. simpl andb. cbv iota.
    rewrite (migrate_field_absent r k _ Hno). reflexivity.
Qed.

(** ** Default mappings and exported keys *)

Lemma keys_exported_flat (mediaDbTag : string) (obj : object) :
  hasOwnProperty obj "userData" = false ->
  keys (exported mediaDbTag obj) = keys (exported mediaDbTag []).
Proof.
  intros E. unfold exported, MediaTypeModel.toMetaDataObject.
  rewrite getWithOutUserData_delete, !constructor_shape.
  unfold constructed_field, migrated_fields, map_fields. rewrite E.
  generalize (Utils.migrate_field obj). intros mf.
  vm_compute. reflexivity.
Qed.

Lemma default_mapping_keys (MEDIA_TYPES : list MediaType.t)
    (create : object -> MediaType.t -> MediaTypeModel.methods * object) :
  map (fun m => map Settings.key (Settings.properties m))
    (Settings.propertyMappingModels (Settings.getDefaultSettings MEDIA_TYPES create))
  = map (fun mediaType =>
           keys (MediaTypeModel.toMetaDataObject (fst (create [] mediaType))
                   (snd (create [] mediaType))))
      MEDIA_TYPES.
Proof.
  rewrite getDefaultSettings_models, map_map. apply map_ext. intros mt.
  cbn [Settings.properties]. rewrite map_map. cbn [Settings.key].
  apply map_id.
Qed.

(** X5.  The default property mappings of the Game kind name exactly the
    keys exported for any Game record constructed from an input without
    a [userData] key, in the same order: no exported key of such a
    record is without a mapping. *)
Theorem default_mappings_cover_export :
  forall (mediaDbTag : string) (obj : object),
    hasOwnProperty obj "userData" = false ->
    map (fun m => map Settings.key (Settings.properties m))
      (Settings.propertyMappingModels
         (Settings.getDefaultSettings [MediaType.Game]
            (fun o _ => (GameModel.methods mediaDbTag, GameModel.constructor o))))
    = [keys (exported mediaDbTag obj)].
Proof.
  intros tag obj E. rewrite default_mapping_keys.
  rewrite (keys_exported_flat tag obj E).
  change (map ?f [MediaType.Game]) with [f MediaType.Game].
  cbv beta. unfold exported. cbn [fst snd]. reflexivity.
Qed.

Lemma default_mappings_cover_export_witness :
  map (fun m => map Settings.key (Settings.properties m))
    (Settings.propertyMappingModels
       (Settings.getDefaultSettings [MediaType.Game]
          (fun o _ => (GameModel.methods "mediaDB", GameModel.constructor o))))
  = [keys (exported "mediaDB" [("title", Prim (Str "Hades"))])].
Proof.
  apply (default_mappings_cover_export "mediaDB" [("title", Prim (Str "Hades"))]).
  reflexivity.
Defined.

(** ** Saving a property mapping model *)

Section Save.

Import Settings.

Implicit Types (s : MediaDbPluginSettings) (m : PropertyMappingModel).

Lemma MediaType_to_string_inj (a b : MediaType.t) :
  MediaType.to_string a = MediaType.to_string b -> a = b.
Proof. destruct a, b; simpl; intros H; try reflexivity; discriminate H. Qed.

Lemma same_type_iff m1 m2 : SettingTab.same_type m1 m2 = true <-> type m1 = type m2.
Proof.
  unfold SettingTab.same_type. rewrite String.eqb_eq. split.
  - apply MediaType_to_string_inj.
  - intros ->. reflexivity.
Qed.

(** The loop of [save] maps over the models. *)
Lemma save_models s m :
  propertyMappingModels (SettingTab.save s m)
  = map (fun m2 => if SettingTab.same_type m2 m then m else m2)
      (propertyMappingModels s).
Proof.
  unfold SettingTab.save. cbn [propertyMappingModels].
  match goal with |- fold_left ?f _ _ = _ => set (step := f) end.
  assert (G : forall ms acc,
            fold_left step ms acc
            = acc ++ map (fun m2 => if SettingTab.same_type m2 m then m else m2) ms).
  { induction ms as [| m2 ms IH]; intros acc; cbn [fold_left map].
    - now rewrite app_nil_r.
    - rewrite IH. unfold step at 1.
      destruct (SettingTab.same_type m2 m); now rewrite <- app_assoc. }
  apply (G _ []).
Qed.

(** X6.  Saving a model never changes which kinds the settings hold
    models for, nor their order or number; and saving a model of a kind
    the settings hold no model for changes nothing at all. *)
Theorem save_preserves_kinds :
  forall s m,
    map type (propertyMappingModels (SettingTab.save s m))
    = map type (propertyMappingModels s) /\
    (~ In (type m) (map type (propertyMappingModels s)) ->
     SettingTab.save s m = s).
Proof.
  intros s m. split.
  - rewrite save_models, map_map. apply map_ext. intros m2.
    destruct (SettingTab.same_type m2 m) eqn:E; [| reflexivity].
    apply same_type_iff in E. now symmetry.
  - intros Hnot. destruct s as [ms]. cbn [propertyMappingModels] in Hnot.
    assert (H : propertyMappingModels (SettingTab.save (Build_Settings ms) m) = ms).
    { rewrite save_models. cbn [propertyMappingModels].
      rewrite <- (map_id ms) at 2. apply map_ext_in. intros m2 Hin.
      destruct (SettingTab.same_type m2 m) eqn:E; [| reflexivity].
      apply same_type_iff in E. exfalso. apply Hnot. rewrite <- E.
      now apply in_map. }
    destruct (SettingTab.save (Build_Settings ms) m) as [ms'].
    cbn [propertyMappingModels] in H. now subst ms'.
Qed.

(** X7.  After [save(model)], position by position: where the settings
    held a model of the kind of [model] they hold [model], and every
    other model is where and what it was.  In particular all models of
    that kind are now [model]. *)
Theorem save_replaces_kind :
  forall s m,
    (forall i m2, nth_error (propertyMappingModels s) i = Some m2 ->
       nth_error (propertyMappingModels (SettingTab.save s m)) i
       = Some (if SettingTab.same_type m2 m then m else m2)) /\
    (forall m', In m' (propertyMappingModels (SettingTab.save s m)) ->
       type m' = type m -> m' = m).
Proof.
  intros s m. split.
  - intros i m2 H. rewrite save_models.
    apply (map_nth_error
             (fun m2 => if SettingTab.same_type m2 m then m else m2) i _ H).
  - intros m' Hin Ht. rewrite save_models in Hin.
    apply in_map_iff in Hin. destruct Hin as [m2 [Heq _]].
    destruct (SettingTab.same_type m2 m) eqn:E; [now symmetry |].
    subst m'. apply same_type_iff in Ht. congruence.
Qed.

(** X8.  Saves compose: of two saves for the same kind the later one
    stands, as if the earlier had not happened, and saves for different
    kinds can be done in either order. *)
Theorem save_compose :
  forall s m1 m2,
    (type m1 = type m2 ->
     SettingTab.save (SettingTab.save s m1) m2 = SettingTab.save s m2) /\
    (type m1 <> type m2 ->
     SettingTab.save (SettingTab.save s m1) m2
     = SettingTab.save (SettingTab.save s m2) m1).
Proof.
  intros s m1 m2.
  assert (Hext : forall a b,
            propertyMappingModels a = propertyMappingModels b -> a = b).
  { intros [a] [b] H. cbn in H. now subst. }
  assert (Hs : forall a b, type a = type b -> SettingTab.same_type a b = true)
    by (intros a b H; now apply same_type_iff).
  assert (Hd : forall a b, type a <> type b -> SettingTab.same_type a b = false).
  { intros a b H. destruct (SettingTab.same_type a b) eqn:E; [| reflexivity].
    apply same_type_iff in E. contradiction. }
  split; intros Ht; apply Hext; rewrite !save_models, !map_map;
    apply map_ext; intros m; cbv beta.
  - destruct (SettingTab.same_type m m1) eqn:E1.
    + apply same_type_iff in E1.
      rewrite (Hs m1 m2 Ht), (Hs m m2) by congruence. reflexivity.
    + reflexivity.
  - destruct (SettingTab.same_type m m1) eqn:E1.
    + apply same_type_iff in E1.
      rewrite (Hd m1 m2 Ht), (Hd m m2) by congruence.
      rewrite (Hs m m1 E1). reflexivity.
    + destruct (SettingTab.same_type m m2) eqn:E2.
      * rewrite (Hd m2 m1) by congruence. reflexivity.
      * rewrite E1. reflexivity.
Qed.

End Save.

Definition two_models : Settings.MediaDbPluginSettings :=
  Settings.Build_Settings
    [ Settings.Build_PropertyMappingModel MediaType.Movie [];
      Settings.Build_PropertyMappingModel MediaType.Game [] ].

Definition game_mapping : Settings.PropertyMappingModel :=
  Settings.Build_PropertyMappingModel MediaType.Game
    [ Settings.new_PropertyMapping "title" "name" Settings.Remap false ].

Lemma save_preserves_kinds_witness :
  SettingTab.save two_models
    (Settings.Build_PropertyMappingModel MediaType.Book [])
  = two_models.
Proof.
  apply (save_preserves_kinds two_models
           (Settings.Build_PropertyMappingModel MediaType.Book [])).
  simpl. intros [H | [H | []]]; discriminate H.
Defined.

Lemma save_replaces_kind_witness :
  nth_error (Settings.propertyMappingModels (SettingTab.save two_models game_mapping)) 1
  = Some game_mapping.
Proof.
  apply (proj1 (save_replaces_kind two_models game_mapping) 1
           (Settings.Build_PropertyMappingModel MediaType.Game [])).
  reflexivity.
Defined.

Lemma save_compose_witness :
  SettingTab.save
    (SettingTab.save two_models (Settings.Build_PropertyMappingModel MediaType.Game []))
    game_mapping
  = SettingTab.save two_models game_mapping.
Proof.
  apply (proj1 (save_compose two_models
                  (Settings.Build_PropertyMappingModel MediaType.Game [])
                  game_mapping)).
  reflexivity.
Defined.

(** ** BangumiAPI, the revision of [src/api/apis/BangumiAPI.ts] *)

(** Runs the two statements of the loop body that may throw. *)
Ltac search_side H :=
  match type of H with
  | context [BangumiV1.year_of ?f ?v] =>
      destruct (BangumiV1.year_of f v); [discriminate H |]; cbn [Bangumi.bind] in H
  end;
  match type of H with
  | context [BangumiV1.toString ?v] =>
      destruct (BangumiV1.toString v); [discriminate H |]; cbn [Bangumi.bind] in H
  end;
  simpl in H.

Section BangumiV1Facts.

Import Bangumi.

Lemma is_num_exclusive (t : value) (a b : Z) :
  is_num t a = true -> is_num t b = true -> a = b.
Proof.
  destruct t as [[| | ? | n | ?] | ? | ?]; simpl; try discriminate.
  intros Ha Hb. apply Z.eqb_eq in Ha, Hb. congruence.
Qed.

Lemma is_num_other (t : value) (a b : Z) :
  is_num t a = true -> a <> b -> is_num t b = false.
Proof.
  intros Ha Hne. destruct (is_num t b) eqn:E; [| reflexivity].
  exfalso. apply Hne. eapply is_num_exclusive; eassumption.
Qed.

(** X9.  [getById], for a response with status 200 whose fields can be
    assembled, returns a model exactly for the subject types 1, 2 and 4:
    a [ComicMangaModel] for 1, for 2 a [MovieModel] when [category] is 2
    and a [SeriesModel] otherwise, a [GameModel] for 4. *)
Theorem getById_V1_returns :
  forall (id : string) (result : object) (c : model_class),
    V1.getById id 200 result None = Return c
    <-> (is_num (get result "type") 1 = true /\ c = ComicMangaModel)
        \/ (is_num (get result "type") 2 = true /\
            c = if is_num (get result "category") 2 then MovieModel
                else SeriesModel)
        \/ (is_num (get result "type") 4 = true /\ c = GameModel).
Proof.
  intros id result c. unfold V1.getById, V1.select_type.
  change (negb (200 =? 200)%Z) with false. cbv iota.
  destruct (is_num (get result "type") 1) eqn:E1.
  { rewrite (is_num_other _ 1 2 E1), (is_num_other _ 1 4 E1) by lia.
    simpl. split.
    - intros [= <-]. left. split; reflexivity.
    - intros [[_ ->] | [[H _] | [H _]]]; [reflexivity | discriminate H ..]. }
  destruct (is_num (get result "type") 2) eqn:E2.
  { rewrite (is_num_other _ 2 4 E2) by lia.
    destruct (is_num (get result "category") 2); simpl; split;
      try (intros [= <-]; right; left; split; reflexivity);
      intros [[H _] | [[_ ->] | [H _]]];
      first [reflexivity | discriminate H]. }
  destruct (is_num (get result "type") 3) eqn:E3.
  { rewrite (is_num_other _ 3 4 E3) by lia. simpl. split.
    - discriminate.
    - intros [[H _] | [[H _] | [H _]]]; discriminate H. }
  destruct (is_num (get result "type") 4) eqn:E4.
  { simpl. split.
    - intros [= <-]. right. right. split; reflexivity.
    - intros [[H _] | [[H _] | [_ ->]]]; [discriminate H .. | reflexivity]. }
  destruct (is_num (get result "type") 6); simpl; split;
    try discriminate; intros [[H _] | [[H _] | [H _]]]; discriminate H.
Qed.

(** X10.  The [throw] that ends [getById] ("Unknown media type for id")
    is never reached: whatever type name the first [switch] produces,
    one of the four branches that follow returns. *)
Theorem getById_V1_last_throw_dead :
  forall (id : string) (result : object) (type : string),
    V1.select_type id result = Return type ->
    exists c, V1.select_model id type = Return c.
Proof.
  intros id result type. unfold V1.select_type.
  repeat match goal with
         | |- context [if ?b then _ else _] => destruct b
         end; intros H; try discriminate H; injection H as <-;
    eexists; reflexivity.
Qed.

Lemma getById_V1_last_throw_dead_witness :
  exists c, V1.select_model "12" "game" = Return c.
Proof.
  apply (getById_V1_last_throw_dead "12" [("type", Prim (Number 4))] "game").
  reflexivity.
Defined.

Variable substring_0_4 : string -> string.

Lemma search_V1_agrees_aux (result : value) :
  BangumiV1.prop result "type" = Return (get (own_props result) "type") ->
  (forall c args,
     BangumiV1.search_result substring_0_4 result = Return (Some (c, args)) ->
     forall id, V1.getById id 200 (own_props result) None = Return c) /\
  (BangumiV1.search_result substring_0_4 result = Return None ->
   forall id fields_throw,
     exists message,
       V1.getById id 200 (own_props result) fields_throw = Throw message).
Proof.
  intros Hp. unfold BangumiV1.search_result. rewrite Hp. cbn [bind].
  set (r := own_props result).
  unfold V1.getById, V1.select_type.
  change (negb (200 =? 200)%Z) with false. cbv iota.
  destruct (is_num (get r "type") 1).
  { split.
    - intros c args H. search_side H. injection H as <- _. reflexivity.
    - intros H. exfalso. search_side H. discriminate H. }
  destruct (is_num (get r "type") 2).
  { destruct (is_num (get r "category") 2); split;
      try (intros c args H; search_side H; injection H as <- _; reflexivity);
      intros H; exfalso; search_side H; discriminate H. }
  destruct (is_num (get r "type") 3).
  { split; [intros c args H; discriminate H |].
    intros _ id ft. simpl. eauto. }
  destruct (is_num (get r "type") 4).
  { split.
    - intros c args H. search_side H. injection H as <- _. reflexivity.
    - intros H. exfalso. search_side H. discriminate H. }
  split; [intros c args H; discriminate H |].
  intros _ id ft. destruct (is_num (get r "type") 6); simpl; eauto.
Qed.

(** X11.  Search and [getById] agree on the variant: when the loop of
    [searchByTitle] builds a model for a result, [getById] on a subject
    of the same [type] and [category] selects the same class; and a
    result the loop skips is a subject [getById] throws for. *)
Theorem search_V1_agrees_with_getById :
  forall (result : value),
    (forall c args,
       BangumiV1.search_result substring_0_4 result = Return (Some (c, args)) ->
       forall id, V1.getById id 200 (own_props result) None = Return c) /\
    (BangumiV1.search_result substring_0_4 result = Return None ->
     forall id fields_throw,
       exists message,
         V1.getById id 200 (own_props result) fields_throw = Throw message).
Proof.
  intros result.
  destruct result as [[| | b | n | s] | xs | fs];
    try (apply search_V1_agrees_aux; reflexivity);
    (split; [intros c args H; discriminate H | intros H; discriminate H]).
Qed.

End BangumiV1Facts.

Section SearchV1Facts.

Import Bangumi.

Variable substring_0_4 : string -> string.

(** What every constructor call of the search is given. *)
Let well_tagged (m : model_class * object) : Prop :=
  get (snd m) "dataSource" = Prim (Str "BangumiAPI") /\
  In (fst m, get (snd m) "type")
    [ (MovieModel, Prim (Str "movie")); (SeriesModel, Prim (Str "series"));
      (ComicMangaModel, Prim (Str "comicManga")); (GameModel, Prim (Str "game")) ].

Lemma search_result_well_tagged (result : value) (m : model_class * object) :
  BangumiV1.search_result substring_0_4 result = Return (Some m) ->
  well_tagged m.
Proof.
  unfold BangumiV1.search_result.
  destruct (BangumiV1.prop result "type") as [msg | t]; [discriminate |].
  cbn [bind]. set (r := own_props result).
  destruct (is_num t 1);
    [| destruct (is_num t 2);
       [destruct (is_num (get r "category") 2)
       | destruct (is_num t 3); [| destruct (is_num t 4)]]];
    intros H; try discriminate H;
    search_side H; injection H as <-; (split; [reflexivity |]);
    simpl; auto 6.
Qed.

Lemma search_loop_spec (xs : list value) :
  forall acc ret,
    BangumiV1.search_loop substring_0_4 xs acc = Return ret ->
    exists new, ret = acc ++ new /\ length new <= length xs /\
                Forall well_tagged new.
Proof.
  induction xs as [| x xs IH]; intros acc ret H; simpl in H.
  - injection H as <-. exists []. rewrite app_nil_r. repeat split; auto.
  - destruct (BangumiV1.search_result substring_0_4 x) as [msg | m] eqn:E;
      [discriminate H |].
    cbn [bind] in H. destruct (IH _ _ H) as (new & -> & Hlen & Hall).
    destruct m as [m |].
    + exists (m :: new). rewrite <- app_assoc. simpl.
      repeat split; [lia |]. constructor; [| assumption].
      eapply search_result_well_tagged. exact E.
    + exists new. simpl. repeat split; [lia | assumption].
Qed.

Lemma search_loop_throws (xs : list value) (x : value) (msg : string) :
  In x xs -> BangumiV1.search_result substring_0_4 x = Throw msg ->
  forall acc, exists msg',
    BangumiV1.search_loop substring_0_4 xs acc = Throw msg'.
Proof.
  induction xs as [| y xs IH]; intros Hin Hx acc; [destruct Hin |].
  simpl. destruct Hin as [-> | Hin].
  - rewrite Hx. simpl. eauto.
  - destruct (BangumiV1.search_result substring_0_4 y) as [m | o]; simpl;
      [eauto | apply IH; assumption].
Qed.

(** X12.  When [searchByTitle] returns, the status was 200, there are no
    more models than entries in [data.list], and every model is built
    from arguments that carry the name of the API as [dataSource] and
    the [type] that belongs to the class constructed: 'movie' for a
    [MovieModel], 'series' for a [SeriesModel], 'comicManga' for a
    [ComicMangaModel], 'game' for a [GameModel]. *)
Theorem searchByTitle_V1_models :
  forall (status : Z) (data : value) (ret : list (model_class * object)),
    BangumiV1.searchByTitle substring_0_4 status data = Return ret ->
    status = 200%Z /\
    Forall (fun m =>
              get (snd m) "dataSource" = Prim (Str "BangumiAPI") /\
              In (fst m, get (snd m) "type")
                [ (MovieModel, Prim (Str "movie"));
                  (SeriesModel, Prim (Str "series"));
                  (ComicMangaModel, Prim (Str "comicManga"));
                  (GameModel, Prim (Str "game")) ])
      ret /\
    (forall xs, get (own_props data) "list" = Array xs -> length ret <= length xs).
Proof.
  intros status data ret. unfold BangumiV1.searchByTitle.
  destruct (Z.eqb status 200) eqn:Es; simpl negb; cbv iota; [| discriminate].
  apply Z.eqb_eq in Es. intros H. split; [exact Es |].
  assert (Hempty : ret = [] ->
            Forall well_tagged ret /\
            (forall xs, get (own_props data) "list" = Array xs ->
                        length ret <= length xs)).
  { intros ->. split; [constructor | intros; simpl; lia]. }
  destruct (BangumiV1.prop data "list") as [msg | l] eqn:Ep; [discriminate H |].
  cbn [bind] in H.
  assert (Hl : get (own_props data) "list" = l).
  { destruct data as [[| | ? | ? | ?] | ? | ?]; simpl in Ep;
      try discriminate Ep; now injection Ep. }
  destruct (negb (truthy l)); [injection H as <-; now apply Hempty |].
  destruct l as [[| | b | n | s] | [| x xs] | fs]; try discriminate H;
    try (injection H as <-; now apply Hempty).
  - destruct (search_loop_spec _ _ _ H) as (new & -> & Hlen & Hall).
    simpl app. split; [exact Hall |].
    intros xs' Hxs'. rewrite Hl in Hxs'. injection Hxs' as <-. exact Hlen.
  - destruct (is_num (get fs "length") 0); [| discriminate H].
    injection H as <-. now apply Hempty.
Qed.

(** X13.  One result of a supported type without an [id] makes the
    whole search fail: [result.id.toString()] throws, nothing catches
    it, and the models already built are lost. *)
Theorem searchByTitle_V1_missing_id :
  forall (data : value) (xs : list value) (x : value),
    get (own_props data) "list" = Array xs ->
    In x xs ->
    is_num (get (own_props x) "type") 1 || is_num (get (own_props x) "type") 2
    || is_num (get (own_props x) "type") 4 = true ->
    get (own_props x) "id" = Prim Undefined ->
    exists message,
      BangumiV1.searchByTitle substring_0_4 200 data = Throw message.
Proof.
  intros data xs x Hl Hin Ht Hid.
  assert (Hx : exists msg, BangumiV1.search_result substring_0_4 x = Throw msg).
  { unfold BangumiV1.search_result.
    assert (Hp : BangumiV1.prop x "type" = Return (get (own_props x) "type")).
    { destruct x as [[| | ? | ? | ?] | ? | ?]; try reflexivity;
        simpl in Ht; discriminate Ht. }
    rewrite Hp. cbn [bind]. rewrite Hid.
    set (t := get (own_props x) "type") in *.
    destruct (is_num t 1) eqn:E1;
      [| destruct (is_num t 2) eqn:E2;
         [| destruct (is_num t 3) eqn:E3;
            [simpl in Ht;
             pose proof (is_num_exclusive _ _ _ E3 Ht) as Hc; discriminate Hc
            | destruct (is_num t 4) eqn:E4;
              [| simpl in Ht; discriminate Ht]]]];
      destruct (BangumiV1.year_of substring_0_4 (get (own_props x) "air_date"));
      simpl; eauto. }
  destruct Hx as [msg Hx].
  unfold BangumiV1.searchByTitle. simpl negb. cbv iota.
  assert (Hp : BangumiV1.prop data "list" = Return (Array xs)).
  { destruct data as [[| | ? | ? | ?] | ? | ?]; simpl in Hl |- *;
      try discriminate Hl; now rewrite Hl. }
  rewrite Hp. cbn [bind]. simpl truthy. simpl negb. cbv iota.
  destruct xs as [| y ys]; [destruct Hin |].
  eapply search_loop_throws; eassumption.
Qed.

End SearchV1Facts.

(** Vendor data used below: an animated film, and a search response
    that lists it after a game. *)
Definition film : value :=
  Object [ ("id", Prim (Number 7)); ("type", Prim (Number 2));
           ("category", Prim (Number 2)); ("name", Prim (Str "Akira"));
           ("air_date", Prim (Str "1988-07-16")) ].

Definition found_list : list value :=
  [ Object [ ("id", Prim (Number 4)); ("type", Prim (Number 4));
             ("name", Prim (Str "Hades")) ];
    film ].

Definition found : value := Object [ ("list", Array found_list) ].

Lemma search_V1_agrees_with_getById_witness :
  Bangumi.V1.getById "7" 200 (own_props film) None = Bangumi.Return Bangumi.MovieModel.
Proof.
  apply (proj1 (search_V1_agrees_with_getById (fun s => s) film) Bangumi.MovieModel
           [ ("type", Prim (Str "movie")); ("title", Prim (Str "Akira"));
             ("englishTitle", Prim (Str "Akira"));
             ("year", Prim (Str "1988-07-16"));
             ("dataSource", Prim (Str "BangumiAPI")); ("id", Prim (Str "7"));
             ("image", Prim (Str "")) ]).
  reflexivity.
Defined.

Lemma searchByTitle_V1_models_witness :
  length [ (Bangumi.GameModel,
             [ ("type", Prim (Str "game")); ("title", Prim (Str "Hades"));
               ("englishTitle", Prim (Str "Hades")); ("year", Prim (Str ""));
               ("dataSource", Prim (Str "BangumiAPI")); ("id", Prim (Str "4"));
               ("image", Prim (Str "")) ]);
           (Bangumi.MovieModel,
             [ ("type", Prim (Str "movie")); ("title", Prim (Str "Akira"));
               ("englishTitle", Prim (Str "Akira"));
               ("year", Prim (Str "1988-07-16"));
               ("dataSource", Prim (Str "BangumiAPI")); ("id", Prim (Str "7"));
               ("image", Prim (Str "")) ]) ] <= length found_list.
Proof.
  apply (proj2 (proj2 (searchByTitle_V1_models (fun s => s) 200 found _ eq_refl))
           found_list).
  reflexivity.
Defined.

Lemma searchByTitle_V1_missing_id_witness :
  exists message,
    BangumiV1.searchByTitle (fun s => s) 200
      (Object [ ("list", Array [ film; Object [ ("type", Prim (Number 4)) ] ]) ])
    = Bangumi.Throw message.
Proof.
  apply (searchByTitle_V1_missing_id (fun s => s)
           (Object [ ("list", Array [ film; Object [ ("type", Prim (Number 4)) ] ]) ])
           [ film; Object [ ("type", Prim (Number 4)) ] ]
           (Object [ ("type", Prim (Number 4)) ])).
  - reflexivity.
  - simpl. auto.
  - reflexivity.
  - reflexivity.
Defined.

(** X14.  [mapStatus] is idempotent, and what it returns is never one of
    the vendor's codes ['Air'], ['NA'], ['End']. *)
Theorem mapStatus_V1_idempotent :
  forall status : value,
    BangumiV1.mapStatus (BangumiV1.mapStatus status) = BangumiV1.mapStatus status /\
    BangumiV1.mapStatus status <> Prim (Str "Air") /\
    BangumiV1.mapStatus status <> Prim (Str "NA") /\
    BangumiV1.mapStatus status <> Prim (Str "End").
Proof.
  intros status. unfold BangumiV1.mapStatus.
  destruct (is_str status "Air") eqn:E1;
    [split; [reflexivity | split; [| split]; discriminate] |].
  destruct (is_str status "NA") eqn:E2;
    [split; [reflexivity | split; [| split]; discriminate] |].
  destruct (is_str status "End") eqn:E3;
    [split; [reflexivity | split; [| split]; discriminate] |].
  rewrite E1, E2, E3.
  split; [reflexivity | split; [| split]];
    intros ->; simpl in *; discriminate.
Qed.

(** ** BangumiAPI, the later revision *)

Lemma is_str_exclusive (v : value) (a b : string) :
  is_str v a = true -> is_str v b = true -> a = b.
Proof.
  destruct v as [[| | ? | ? | s] | ? | ?]; simpl; try discriminate.
  intros Ha Hb. apply String.eqb_eq in Ha, Hb. congruence.
Qed.

(** Closes a branch of the dispatch whose tests contradict each other. *)
Ltac contradictory_tests :=
  first
    [ reflexivity
    | congruence
    | match goal with
      | H1 : is_num ?t ?a = true, H2 : is_num ?t ?b = true |- _ =>
          let Hc := fresh in
          pose proof (is_num_exclusive _ _ _ H1 H2) as Hc; discriminate Hc
      end
    | match goal with
      | H1 : is_str ?p ?a = true, H2 : is_str ?p ?b = true |- _ =>
          let Hc := fresh in
          pose proof (is_str_exclusive _ _ _ H1 H2) as Hc; discriminate Hc
      end ].

Ltac split_tests :=
  repeat (match goal with
          | |- context [if ?b then _ else _] => destruct b eqn:?
          end; cbv iota).

Section BangumiV2Facts.

Import Bangumi.




(** X16.  For a live-action subject (type 6) the statements after the
    first chain of tests run whatever that chain did.  With exactly one
    episode the kind is [Movie], whatever the platform; with any other
    number of episodes the sub type is ['Show'] for the platform ['综艺']
    and ['Other'] for every other platform: the sub types the first
    chain assigns (JPTV, CNTV, ENTV, TV, Live) do not survive. *)
Theorem select_type_live_action :
  forall subjectData : object,
    is_num (get subjectData "type") 6 = true ->
    (is_num (get subjectData "eps") 1 = true ->
     fst (V2.select_type subjectData) = MediaType.Movie) /\
    (is_num (get subjectData "eps") 1 = false ->
     snd (V2.select_type subjectData)
     = Some (if is_str (get subjectData "platform") "综艺" then "Show"
             else "Other") /\
     fst (V2.select_type subjectData)
     = if is_str (get subjectData "platform") "电影" then MediaType.Movie
       else MediaType.Series).
Proof.
  intros sd H6. unfold V2.select_type.
  rewrite (is_num_other _ 6 1 H6), (is_num_other _ 6 2 H6),
    (is_num_other _ 6 3 H6), (is_num_other _ 6 4 H6), H6 by lia.
  split; intros He; rewrite He; split_tests; cbn [fst snd];
    try reflexivity; try split; contradictory_tests.
Qed.

Lemma select_type_live_action_witness :
  snd (V2.select_type [("type", Prim (Number 6)); ("platform", Prim (Str "日剧"));
                       ("eps", Prim (Number 11))])
  = Some "Other".
Proof.
  apply (proj2 (select_type_live_action
                  [("type", Prim (Number 6)); ("platform", Prim (Str "日剧"));
                   ("eps", Prim (Number 11))] eq_refl) eq_refl).
Defined.

Lemma endsWith_app (s suffix : string) :
  BangumiV2.endsWith (s ++ suffix) suffix = true.
Proof.
  induction s as [| c s IH]; simpl.
  - destruct suffix; simpl; rewrite ?Ascii.eqb_refl, ?String.eqb_refl; reflexivity.
  - rewrite IH. apply orb_true_r.
Qed.

(** X17.  Whatever the settings hold, the [apiUrl] the constructor sets
    ends with a slash, so that the paths appended to it form a URL; a
    proxy URL that is empty or blank leaves the default in place, and one
    that already ends with a slash is taken as trimmed. *)
Theorem constructor_apiUrl_ends_with_slash :
  forall (trim : string -> string) (settings : option string),
    BangumiV2.endsWith (BangumiV2.constructor_apiUrl trim settings) "/" = true /\
    (forall proxy, settings = Some proxy -> trim proxy = "" ->
       BangumiV2.constructor_apiUrl trim settings = BangumiV2.default_apiUrl) /\
    (forall proxy, settings = Some proxy -> proxy <> "" ->
       BangumiV2.endsWith (trim proxy) "/" = true ->
       BangumiV2.constructor_apiUrl trim settings = trim proxy).
Proof.
  intros trim settings. split; [| split].
  - destruct settings as [proxy |]; simpl; [| reflexivity].
    destruct (negb (String.eqb proxy "") && negb (String.eqb (trim proxy) ""));
      [| reflexivity].
    destruct (BangumiV2.endsWith (trim proxy) "/") eqn:E; simpl.
    + exact E.
    + apply endsWith_app.
  - intros proxy -> Ht. simpl. rewrite Ht. simpl.
    now rewrite andb_false_r.
  - intros proxy -> Hne He. simpl.
    apply String.eqb_neq in Hne. rewrite Hne. simpl.
    destruct (String.eqb (trim proxy) "") eqn:Et; simpl.
    + apply String.eqb_eq in Et. rewrite Et in He. discriminate He.
    + now rewrite He.
Qed.

Lemma constructor_apiUrl_ends_with_slash_witness :
  BangumiV2.constructor_apiUrl (fun s => s) (Some "https://example.org/bgm/")
  = "https://example.org/bgm/".
Proof.
  apply (proj2 (proj2 (constructor_apiUrl_ends_with_slash (fun s => s)
                         (Some "https://example.org/bgm/")))
           "https://example.org/bgm/").
  - reflexivity.
  - discriminate.
  - reflexivity.
Defined.

End BangumiV2Facts.

Section ExtractInfoArrayFacts.

Import Bangumi.

Variable trim : string -> string.
Variable includes : string -> string -> bool.
Variable split : string -> string -> list string.

Let item_values := BangumiV2.item_values trim includes split.
Let extract_loop := BangumiV2.extract_loop trim includes split.
Let extractInfoArray := BangumiV2.extractInfoArray trim includes split.

Lemma sub_values_throws (ys : list value) :
  (exists message, BangumiV2.sub_values ys = Throw message)
  <-> In (Prim Null) ys.
Proof.
  induction ys as [| y ys IH]; simpl.
  - split; [intros [m H]; discriminate H | intros []].
  - destruct y as [[| | b | n | s] | xs | fs]; simpl;
      try (split; [intros _; now left | intros _; eauto]);
      try destruct (truthy (get fs "v")); simpl;
      (destruct (BangumiV2.sub_values ys) as [m | vs]; simpl;
       [ split; [intros _; right; apply IH; eauto | intros _; eauto]
       | split; [intros [m H]; discriminate H
                | intros [H | H]; [discriminate H |];
                  apply IH in H; destruct H as [m H]; discriminate H ] ]).
Qed.

Lemma item_values_throws (targetKeys : list string) (item : value) :
  (exists message, item_values targetKeys item = Throw message)
  <-> BangumiV2.key_wanted targetKeys (get (own_props item) "key") = true /\
      exists ys, get (own_props item) "value" = Array ys /\ In (Prim Null) ys.
Proof.
  unfold item_values, BangumiV2.item_values.
  assert (Hno : forall o : outcome (list value),
            (exists vs, o = Return vs) ->
            BangumiV2.key_wanted targetKeys (get (own_props item) "key") = false
            \/ (forall ys, get (own_props item) "value" <> Array ys) ->
            (exists message, o = Throw message)
            <-> BangumiV2.key_wanted targetKeys (get (own_props item) "key") = true /\
                exists ys, get (own_props item) "value" = Array ys /\
                           In (Prim Null) ys).
  { intros o [vs ->] Hc. split.
    - intros [m H]. discriminate H.
    - intros [Hk (ys & Hy & _)]. destruct Hc as [Hc | Hc].
      + congruence.
      + exfalso. exact (Hc ys Hy). }
  destruct item as [[| | b | n | s] | xs | fs];
    try (apply Hno; [eauto | left; reflexivity]).
  - simpl. eauto.
  - cbn [own_props]. clear Hno.
    destruct (BangumiV2.key_wanted targetKeys (get fs "key"));
      [| split; [intros [m H]; discriminate H | intros [H _]; discriminate H]].
    destruct (get fs "value") as [[| | b | n | s] | ys | gs];
      try destruct (includes s BangumiV2.separator);
      try (split; [intros [m H]; discriminate H
                  | intros [_ (ys' & H & _)]; discriminate H]).
    split.
    + intros [m H]. split; [reflexivity |]. exists ys. split; [reflexivity |].
      apply sub_values_throws.
      destruct (BangumiV2.sub_values ys) as [m' | vs]; [eauto |].
      discriminate H.
    + intros [_ (ys' & Hy & Hin)]. injection Hy as <-.
      apply sub_values_throws in Hin. destruct Hin as [m Hm].
      rewrite Hm. simpl. eauto.
Qed.

Lemma extract_loop_throws (targetKeys : list string) (items : list value) :
  forall values,
    (exists message, extract_loop targetKeys items values = Throw message)
    <-> exists item, In item items /\
                     exists message, item_values targetKeys item = Throw message.
Proof.
  unfold extract_loop, item_values.
  induction items as [| item items IH]; intros values; simpl.
  - split; [intros [m H]; discriminate H | intros (i & [] & _)].
  - destruct (BangumiV2.item_values trim includes split targetKeys item)
      as [m | vs] eqn:E; simpl.
    + split; [intros _; exists item; split; [now left | eauto] | eauto].
    + rewrite IH. split.
      * intros (i & Hin & H). exists i. split; [now right | exact H].
      * intros (i & [<- | Hin] & [m H]); [congruence |].
        exists i. split; [exact Hin | eauto].
Qed.

(** X18.  [extractInfoArray] throws exactly when the infobox has an item
    with a wanted key whose [value] is an array with [null] in it
    ([typeof null] is ['object'], and [null.v] cannot be read); any other
    infobox, however malformed, gives a list.  What is not an array
    gives the empty list. *)
Theorem extractInfoArray_throws :
  forall (infobox : value) (targetKeys : list string),
    ((exists message, extractInfoArray infobox targetKeys = Throw message)
     <-> exists items item ys,
           infobox = Array items /\ In item items /\
           BangumiV2.key_wanted targetKeys (get (own_props item) "key") = true /\
           get (own_props item) "value" = Array ys /\ In (Prim Null) ys) /\
    ((forall items, infobox <> Array items) ->
     extractInfoArray infobox targetKeys = Return []).
Proof.
  intros infobox targetKeys. split.
  - unfold extractInfoArray, BangumiV2.extractInfoArray.
    destruct infobox as [p | items | fs];
      try (split; [intros [m H]; discriminate H
                  | intros (items & item & ys & H & _); discriminate H]).
    fold (extract_loop targetKeys items []).
    rewrite extract_loop_throws. split.
    + intros (item & Hin & Hthrow). apply item_values_throws in Hthrow.
      destruct Hthrow as (Hk & ys & Hy & Hn).
      exists items, item, ys. auto.
    + intros (items' & item & ys & Heq & Hin & Hk & Hy & Hn).
      injection Heq as <-. exists item. split; [exact Hin |].
      apply item_values_throws. split; [exact Hk |]. exists ys. auto.
  - intros Hno. unfold extractInfoArray, BangumiV2.extractInfoArray.
    destruct infobox as [p | items | fs]; try reflexivity.
    exfalso. exact (Hno items eq_refl).
Qed.

Lemma extract_loop_values (targetKeys : list string) (items : list value) :
  forall values,
    extract_loop targetKeys items values
    = bind (extract_loop targetKeys items []) (fun vs => Return (values ++ vs)).
Proof.
  unfold extract_loop.
  induction items as [| item items IH]; intros values; simpl.
  - now rewrite app_nil_r.
  - destruct (BangumiV2.item_values trim includes split targetKeys item)
      as [m | vs]; simpl; [reflexivity |].
    rewrite (IH (values ++ vs)), (IH vs).
    destruct (BangumiV2.extract_loop trim includes split targetKeys items [])
      as [m | ws]; simpl; [reflexivity |].
    now rewrite app_assoc.
Qed.

(** X19.  [extractInfoArray] works item by item: the values of an
    infobox made of two parts are the values of the first part followed
    by those of the second, and it throws if either part does. *)
Theorem extractInfoArray_app :
  forall (a b : list value) (targetKeys : list string),
    extractInfoArray (Array (a ++ b)) targetKeys
    = bind (extractInfoArray (Array a) targetKeys)
        (fun va =>
           bind (extractInfoArray (Array b) targetKeys)
             (fun vb => Return (va ++ vb))).
Proof.
  intros a b targetKeys.
  unfold extractInfoArray, BangumiV2.extractInfoArray.
  fold (extract_loop targetKeys (a ++ b) []).
  fold (extract_loop targetKeys a []). fold (extract_loop targetKeys b []).
  assert (G : forall values,
            extract_loop targetKeys (a ++ b) values
            = bind (extract_loop targetKeys a values)
                (fun va => extract_loop targetKeys b va)).
  { unfold extract_loop. induction a as [| item a IH]; intros values; simpl;
      [reflexivity |].
    destruct (BangumiV2.item_values trim includes split targetKeys item)
      as [m | vs]; simpl; [reflexivity | apply IH]. }
  rewrite G. destruct (extract_loop targetKeys a []) as [m | va]; simpl;
    [reflexivity |].
  apply extract_loop_values.
Qed.

End ExtractInfoArrayFacts.

(** X20.  Of [subjectData.tags] at most the first five are read: the
    tag names are as many as the tags, up to five, and tags beyond the
    fifth play no part, not even a [null] among them.  A [tags] that is
    not an array gives the empty list. *)
Theorem apiTags_first_five :
  forall tags : list value,
    BangumiV2.apiTags (Array tags) = BangumiV2.apiTags (Array (firstn 5 tags)) /\
    (forall names, BangumiV2.apiTags (Array tags) = Bangumi.Return names ->
       length names = Nat.min 5 (length tags) /\
       names = map (fun tag => get (own_props tag) "name") (firstn 5 tags)).
Proof.
  intros tags. split.
  - unfold BangumiV2.apiTags. now rewrite firstn_firstn.
  - unfold BangumiV2.apiTags. intros names H.
    assert (G : forall xs ns, BangumiV2.tag_names xs = Bangumi.Return ns ->
              ns = map (fun tag => get (own_props tag) "name") xs).
    { induction xs as [| x xs IH]; intros ns Hn; simpl in Hn.
      - now injection Hn as <-.
      - destruct (BangumiV1.prop x "name") as [m | v] eqn:Ep; [discriminate Hn |].
        simpl in Hn.
        destruct (BangumiV2.tag_names xs) as [m | vs]; [discriminate Hn |].
        simpl in Hn. injection Hn as <-. simpl. f_equal.
        + destruct x as [[| | ? | ? | ?] | ? | ?]; simpl in Ep;
            try discriminate Ep; now injection Ep.
        + now apply IH. }
    apply G in H. subst names. split; [| reflexivity].
    rewrite length_map. apply length_firstn.
Qed.

Lemma apiTags_first_five_witness :
  length [Prim (Str "RPG"); Prim (Str "PC")] = Nat.min 5 2.
Proof.
  apply (proj2 (apiTags_first_five
                  [Object [("name", Prim (Str "RPG"))];
                   Object [("name", Prim (Str "PC"))]])
           [Prim (Str "RPG"); Prim (Str "PC")]).
  reflexivity.
Defined.

Lemma extractInfoArray_throws_witness :
  exists message,
    BangumiV2.extractInfoArray (fun s => s) (fun _ _ => false) (fun s _ => [s])
      (Array [ Object [ ("key", Prim (Str "website"));
                        ("value", Array [ Prim (Str "hades.example"); Prim Null ]) ] ])
      [ "website" ]
    = Bangumi.Throw message.
Proof.
  apply (proj2 (proj1 (extractInfoArray_throws
                         (fun s => s) (fun _ _ => false) (fun s _ => [s])
                         (Array [ Object [ ("key", Prim (Str "website"));
                                           ("value", Array [ Prim (Str "hades.example");
                                                             Prim Null ]) ] ])
                         [ "website" ]))).
  exists [ Object [ ("key", Prim (Str "website"));
                    ("value", Array [ Prim (Str "hades.example"); Prim Null ]) ] ],
    (Object [ ("key", Prim (Str "website"));
              ("value", Array [ Prim (Str "hades.example"); Prim Null ]) ]),
    [ Prim (Str "hades.example"); Prim Null ].
  repeat split; simpl; auto.
Defined.

Section SearchV2Facts.

Import Bangumi.

Variable constructor_throws : model_class -> object -> bool.

(** What every model the search keeps was built from. *)
Let built (m : model_class * object) : Prop :=
  (exists kind,
     In (fst m, kind)
       [ (BookModel, MediaType.Book); (SeriesModel, MediaType.Series);
         (MusicReleaseModel, MediaType.MusicRelease);
         (GameModel, MediaType.Game) ] /\
     get (snd m) "type" = Prim (Str (MediaType.to_string kind))) /\
  get (snd m) "subType" = Prim Undefined /\
  get (snd m) "dataSource" = Prim (Str "BangumiAPI") /\
  constructor_throws (fst m) (snd m) = false.

Lemma search_result_built (result : value) (m : model_class * object) :
  BangumiV2.search_result constructor_throws result = Return (Some m) ->
  built m.
Proof.
  unfold BangumiV2.search_result.
  destruct (BangumiV1.prop result "id") as [msg | id]; [discriminate |].
  cbn [bind]. set (r := own_props result).
  destruct (negb (truthy id) || negb (truthy (get r "type"))); [discriminate |].
  destruct (BangumiV2.year_of (get r "air_date")) as [msg | year];
    [discriminate |].
  cbn [bind]. unfold BangumiV2.search_type.
  repeat match goal with
         | |- context [if is_num ?t ?n then _ else _] => destruct (is_num t n)
         end; try discriminate;
    (destruct (BangumiV1.toString id) as [msg | idString]; [discriminate |]);
    cbn [bind BangumiV2.search_model];
    match goal with
    | |- context [constructor_throws ?c ?a] =>
        destruct (constructor_throws c a) eqn:Ec
    end; try discriminate;
    intros H; injection H as <-; unfold built; cbn [fst snd];
    (split;
     [ first [ exists MediaType.Book; split; [simpl; auto 6 | reflexivity]
             | exists MediaType.Series; split; [simpl; auto 6 | reflexivity]
             | exists MediaType.MusicRelease; split; [simpl; auto 6 | reflexivity]
             | exists MediaType.Game; split; [simpl; auto 6 | reflexivity] ]
     | split; [reflexivity | split; [reflexivity | exact Ec]] ]).
Qed.

Lemma search_loop_V2_spec (xs : list value) :
  forall acc ret,
    BangumiV2.search_loop constructor_throws xs acc = Return ret ->
    exists new, ret = acc ++ new /\ length new <= length xs /\
                Forall built new.
Proof.
  induction xs as [| x xs IH]; intros acc ret H; simpl in H.
  - injection H as <-. exists []. rewrite app_nil_r. repeat split; auto.
  - destruct (BangumiV2.search_result constructor_throws x) as [msg | m] eqn:E;
      [discriminate H |].
    cbn [bind] in H. destruct (IH _ _ H) as (new & -> & Hlen & Hall).
    destruct m as [m |].
    + exists (m :: new). rewrite <- app_assoc. simpl.
      repeat split; [lia |]. constructor; [| assumption].
      eapply search_result_built. exact E.
    + exists new. simpl. repeat split; [lia | assumption].
Qed.

Lemma search_loop_V2_throws (xs : list value) (x : value) (msg : string) :
  In x xs -> BangumiV2.search_result constructor_throws x = Throw msg ->
  forall acc, exists msg',
    BangumiV2.search_loop constructor_throws xs acc = Throw msg'.
Proof.
  induction xs as [| y xs IH]; intros Hin Hx acc; [destruct Hin |].
  simpl. destruct Hin as [-> | Hin].
  - rewrite Hx. simpl. eauto.
  - destruct (BangumiV2.search_result constructor_throws y) as [m | o]; simpl;
      [eauto | apply IH; assumption].
Qed.

(** X21.  Whatever the response, every model [searchByTitle] returns is
    a [BookModel], a [SeriesModel], a [MusicReleaseModel] or a
    [GameModel], built without an exception from arguments whose [type]
    is the media kind of that class, whose [subType] is [undefined] and
    whose [dataSource] is the name of the API; so the cases [Movie] and
    [BoardGame] and the [default] of the second [switch] are never
    taken.  There are no more models than entries in [data.list], and
    none without a response or without such a list. *)
Theorem searchByTitle_V2_models :
  forall response : option (Z * value),
    Forall (fun m =>
              (exists kind,
                 In (fst m, kind)
                   [ (BookModel, MediaType.Book); (SeriesModel, MediaType.Series);
                     (MusicReleaseModel, MediaType.MusicRelease);
                     (GameModel, MediaType.Game) ] /\
                 get (snd m) "type" = Prim (Str (MediaType.to_string kind))) /\
              get (snd m) "subType" = Prim Undefined /\
              get (snd m) "dataSource" = Prim (Str "BangumiAPI") /\
              constructor_throws (fst m) (snd m) = false)
      (BangumiV2.searchByTitle constructor_throws response) /\
    length (BangumiV2.searchByTitle constructor_throws response)
    <= match response with
       | Some (_, data) =>
           match get (own_props data) "list" with
           | Array xs => length xs
           | _ => 0
           end
       | None => 0
       end.
Proof.
  intros response. fold built.
  assert (Hnil : forall n, Forall built [] /\ @length (model_class * object) [] <= n)
    by (intros n; split; [constructor | simpl; lia]).
  unfold BangumiV2.searchByTitle.
  destruct response as [[status data] |]; [| apply Hnil].
  destruct (Z.eqb status 404); [apply Hnil |].
  destruct (negb (Z.eqb status 200)); [apply Hnil |].
  destruct (negb (truthy data)); [apply Hnil |].
  destruct (get (own_props data) "list") as [p | xs | fs]; try apply Hnil.
  destruct (BangumiV2.search_loop constructor_throws xs []) as [msg | results] eqn:E;
    [apply Hnil |].
  destruct (search_loop_V2_spec _ _ _ E) as (new & -> & Hlen & Hall).
  simpl app. split; assumption.
Qed.

(** X22.  The search is all or nothing: one entry of [data.list] that is
    [null], or that has an [id] and a [type] and a truthy [air_date]
    that is no string, makes the loop throw; the outer [catch] then
    returns the empty list, and the models built from the entries before
    it are lost. *)
Theorem searchByTitle_V2_all_or_nothing :
  forall (status : Z) (data : value) (xs : list value) (x : value),
    get (own_props data) "list" = Array xs ->
    In x xs ->
    x = Prim Null \/
    (truthy (get (own_props x) "id") = true /\
     truthy (get (own_props x) "type") = true /\
     truthy (get (own_props x) "air_date") = true /\
     forall s, get (own_props x) "air_date" <> Prim (Str s)) ->
    BangumiV2.searchByTitle constructor_throws (Some (status, data)) = [].
Proof.
  intros status data xs x Hl Hin Hx.
  assert (Ht : exists msg,
            BangumiV2.search_result constructor_throws x = Throw msg).
  { destruct Hx as [Hx | (Hid & Hty & Hd & Hs)]; [rewrite Hx; exists BangumiV2.TypeError; reflexivity |].
    unfold BangumiV2.search_result.
    assert (Hp : BangumiV1.prop x "id" = Return (get (own_props x) "id")).
    { destruct x as [[| | ? | ? | ?] | ? | ?]; try reflexivity;
        simpl in Hid; discriminate Hid. }
    rewrite Hp. cbn [bind]. rewrite Hid, Hty. simpl orb. cbv iota.
    unfold BangumiV2.year_of. rewrite Hd.
    destruct (get (own_props x) "air_date") as [[| | ? | ? | s] | ? | ?];
      simpl; eauto.
    exfalso. exact (Hs s eq_refl). }
  destruct Ht as [msg Ht].
  unfold BangumiV2.searchByTitle.
  destruct (Z.eqb status 404); [reflexivity |].
  destruct (negb (Z.eqb status 200)); [reflexivity |].
  destruct (negb (truthy data)); [reflexivity |].
  rewrite Hl.
  destruct (search_loop_V2_throws xs x msg Hin Ht []) as [msg' ->].
  reflexivity.
Qed.

End SearchV2Facts.

Lemma searchByTitle_V2_all_or_nothing_witness :
  BangumiV2.searchByTitle (fun _ _ => false)
    (Some (200%Z, Object [ ("list", Array [ film; Prim Null ]) ]))
  = [].
Proof.
  apply (searchByTitle_V2_all_or_nothing (fun _ _ => false) 200
           (Object [ ("list", Array [ film; Prim Null ]) ])
           [ film; Prim Null ] (Prim Null)).
  - reflexivity.
  - simpl. auto.
  - left. reflexivity.
Defined.

(** The primitives among the elements of a set. *)
Definition prims (vs : list value) : list prim :=
  flat_map (fun v => match v with Prim p => [p] | _ => [] end) vs.

Section ExtractStaffFacts.

Import Bangumi.

Variable roles : list string.

Lemma prim_eqb_eq (p q : prim) : BangumiV2.prim_eqb p q = true <-> p = q.
Proof.
  destruct p as [| | a | a | a], q as [| | b | b | b]; simpl;
    try (split; [discriminate | discriminate]);
    try (split; reflexivity).
  - rewrite Bool.eqb_true_iff. split; [now intros -> | now intros [= ->]].
  - rewrite Z.eqb_eq. split; [now intros -> | now intros [= ->]].
  - rewrite String.eqb_eq. split; [now intros -> | now intros [= ->]].
Qed.

Lemma prims_app (a b : list value) : prims (a ++ b) = prims a ++ prims b.
Proof. unfold prims. apply flat_map_app. Qed.

Lemma in_prims (p : prim) (vs : list value) : In p (prims vs) <-> In (Prim p) vs.
Proof.
  unfold prims. rewrite in_flat_map. split.
  - intros (v & Hin & Hp). destruct v as [q | |]; simpl in Hp;
      try (destruct Hp; fail). destruct Hp as [-> | []]. exact Hin.
  - intros Hin. exists (Prim p). split; [exact Hin | now left].
Qed.

Lemma set_add_held (names : list value) (p : prim) :
  existsb (fun v => match v with
                    | Prim q => BangumiV2.prim_eqb q p
                    | _ => false
                    end) names = true
  <-> In (Prim p) names.
Proof.
  rewrite existsb_exists. split.
  - intros (v & Hin & Hv). destruct v as [q | |]; try discriminate Hv.
    apply prim_eqb_eq in Hv. now subst q.
  - intros Hin. exists (Prim p). split; [exact Hin |]. now apply prim_eqb_eq.
Qed.

Lemma set_add_In (names : list value) (v name : value) :
  In name (BangumiV2.set_add names v) <-> In name names \/ name = v.
Proof.
  unfold BangumiV2.set_add. destruct v as [p | xs | fs];
    try (rewrite in_app_iff; simpl; intuition congruence).
  destruct (existsb _ names) eqn:E.
  - apply set_add_held in E. split; [now left |].
    intros [H | ->]; assumption.
  - rewrite in_app_iff. simpl. intuition congruence.
Qed.

Lemma set_add_NoDup (names : list value) (v : value) :
  NoDup (prims names) -> NoDup (prims (BangumiV2.set_add names v)).
Proof.
  intros Hn. unfold BangumiV2.set_add. destruct v as [p | xs | fs];
    try (rewrite prims_app; simpl; now rewrite app_nil_r).
  destruct (existsb _ names) eqn:E; [exact Hn |].
  rewrite prims_app. simpl.
  apply NoDup_app; [exact Hn | repeat constructor; intros [] |].
  intros q Hq [<- | []]. apply in_prims, set_add_held in Hq.
  rewrite Hq in E. discriminate E.
Qed.

Lemma staff_loop_spec (staff : list value) :
  forall acc names,
    BangumiV2.staff_loop roles staff acc = Return names ->
    (NoDup (prims acc) -> NoDup (prims names)) /\
    (forall name,
       In name names
       <-> In name acc \/
           exists member,
             In member staff /\
             BangumiV2.has_job roles (get (own_props member) "jobs") = Return true /\
             get (own_props member) "name" = name).
Proof.
  induction staff as [| member staff IH]; intros acc names H; simpl in H.
  - injection H as <-. split; [auto |]. intros name. split; [now left |].
    intros [H | (m & [] & _)]. exact H.
  - destruct (BangumiV1.prop member "jobs") as [msg | jobs] eqn:Ep;
      [discriminate H |].
    assert (Hj : jobs = get (own_props member) "jobs").
    { destruct member as [[| | ? | ? | ?] | ? | ?]; simpl in Ep;
        try discriminate Ep; now injection Ep as <-. }
    subst jobs. cbn [bind] in H.
    destruct (BangumiV2.has_job roles (get (own_props member) "jobs"))
      as [msg | wanted] eqn:Eh; [discriminate H |].
    cbn [bind] in H. destruct (IH _ _ H) as [Hn Hin]. split.
    + intros Ha. apply Hn. destruct wanted; [| exact Ha].
      now apply set_add_NoDup.
    + intros name. rewrite Hin. destruct wanted.
      * rewrite set_add_In. split.
        -- intros [[Ha | ->] | (m & Hm & Hw & Hname)].
           ++ now left.
           ++ right. exists member. split; [now left | split; [exact Eh | reflexivity]].
           ++ right. exists m. split; [now right | split; assumption].
        -- intros [Ha | (m & [<- | Hm] & Hw & Hname)].
           ++ left. now left.
           ++ left. right. now symmetry.
           ++ right. exists m. split; [exact Hm | split; assumption].
      * split.
        -- intros [Ha | (m & Hm & Hw & Hname)]; [now left |].
           right. exists m. split; [now right | split; assumption].
        -- intros [Ha | (m & [<- | Hm] & Hw & Hname)]; [now left | |].
           ++ rewrite Eh in Hw. discriminate Hw.
           ++ right. exists m. split; [exact Hm | split; assumption].
Qed.

(** X23.  When [extractStaff] returns, the list holds no string (nor any
    other primitive) twice, and it holds exactly the [name]s of the
    members of [staff] one of whose [jobs] is among [roles]. *)
Theorem extractStaff_no_duplicates :
  forall (staff : value) (names : list value),
    BangumiV2.extractStaff staff roles = Return names ->
    NoDup (prims names) /\
    (forall name,
       In name names
       <-> exists members member,
             staff = Array members /\ In member members /\
             BangumiV2.has_job roles (get (own_props member) "jobs") = Return true /\
             get (own_props member) "name" = name).
Proof.
  intros staff names. unfold BangumiV2.extractStaff.
  assert (Hnil : (forall members, staff <> Array members) ->
            Return (A := list value) [] = Return names ->
            NoDup (prims names) /\
            (forall name,
               In name names
               <-> exists members member,
                     staff = Array members /\ In member members /\
                     BangumiV2.has_job roles (get (own_props member) "jobs")
                     = Return true /\
                     get (own_props member) "name" = name)).
  { intros Hs [= <-]. split; [constructor |]. intros name. split; [intros [] |].
    intros (members & _ & Heq & _). exact (Hs members Heq). }
  destruct staff as [[| | b | n | s] | members | fs]; simpl;
    try (apply Hnil; discriminate); try discriminate.
  - destruct b; simpl; [discriminate | apply Hnil; discriminate].
  - destruct (negb (n =? 0)%Z); simpl; [discriminate | apply Hnil; discriminate].
  - destruct (negb (s =? "")%string); simpl;
      [discriminate | apply Hnil; discriminate].
  - intros H. destruct (staff_loop_spec _ _ _ H) as [Hn Hin]. split.
    + apply Hn. constructor.
    + intros name. rewrite Hin. split.
      * intros [[] | (m & Hm & Hw & Hname)]. exists members, m. auto.
      * intros (members' & m & [= <-] & Hm & Hw & Hname). right. exists m. auto.
Qed.

End ExtractStaffFacts.

Lemma extractStaff_no_duplicates_witness :
  NoDup (prims [ Prim (Str "Supergiant") ]).
Proof.
  apply (proj1 (extractStaff_no_duplicates [ "developer"; "publisher" ]
                  (Array [ Object [ ("name", Prim (Str "Supergiant"));
                                    ("jobs", Array [ Prim (Str "developer") ]) ];
                           Object [ ("name", Prim (Str "Supergiant"));
                                    ("jobs", Array [ Prim (Str "publisher") ]) ];
                           Object [ ("name", Prim (Str "Someone")) ] ])
                  [ Prim (Str "Supergiant") ] eq_refl)).
Defined.

(** X24.  The title [getById] gives a model is [name_cn || name]: the
    assignments in the two branches that follow never change it.  The
    original [name] is kept as [englishTitle] only beside a Chinese
    name: an [englishTitle] that is not empty means both names were
    there, and a subject with a [name] alone gets the empty string. *)
Theorem titles_of_names :
  forall name_cn name : value,
    fst (BangumiV2.titles name_cn name) = BangumiV1.or_else name_cn name /\
    (truthy (snd (BangumiV2.titles name_cn name)) = true
     <-> truthy name_cn = true /\ truthy name = true) /\
    (truthy name_cn = false -> truthy name = true ->
     BangumiV2.titles name_cn name = (name, Prim (Str ""))).
Proof.
  intros name_cn name. unfold BangumiV2.titles, BangumiV1.or_else.
  destruct (truthy name_cn) eqn:Ec, (truthy name) eqn:En; simpl;
    rewrite ?Ec, ?En; repeat split; auto;
    try discriminate; try (intros [H1 H2]; discriminate);
    try (intros H; rewrite En in H; discriminate H).
Qed.

Lemma titles_of_names_witness :
  BangumiV2.titles (Prim Undefined) (Prim (Str "Hades"))
  = (Prim (Str "Hades"), Prim (Str "")).
Proof.
  apply (proj2 (proj2 (titles_of_names (Prim Undefined) (Prim (Str "Hades")))));
    reflexivity.
Defined.
